(** * ebay-find-api: the response normaliser, the call dispatcher and the
      public search functions of [src/index.js], with the earlier
      single-function revision kept in module [Legacy].

    JavaScript data is embedded as a tree of values.  The data that reaches
    this code is deserialised JSON, so no two fields share an object and the
    in-place updates of the source are rendered as functions that return the
    updated tree.  Numbers are the integers (the doubles of the language are
    not modelled; nothing below depends on a fraction or on rounding), and a
    string is a sequence of code units below 256. *)

From Stdlib Require Import List String Ascii ZArith Bool Lia.
From Stdlib Require Import DecimalString DecimalPos.
Import ListNotations.
Local Open Scope string_scope.
Local Open Scope list_scope.

Set Implicit Arguments.

(** ** Values *)

Module JS.

(** An object keeps its properties in insertion order, which is the order
    [for (r in o)] and the spread [{...o}] walk them in.  (The language
    walks keys that are array indices first; nothing below depends on the
    order, only on which value a key holds.)  A well-formed object has each
    key once; [get] and [set_prop] both act on the first occurrence. *)
#[local] Unset Elimination Schemes.
Inductive value : Type :=
| VUndef
| VNull
| VBool (b : bool)
| VNum (z : Z)
| VStr (s : string)
| VArr (elems : list value)
| VObj (props : list (string * value)).
#[local] Set Elimination Schemes.

Definition object := list (string * value).

(** Induction with the hypotheses for the elements of an array and for the
    property values of an object. *)
Section value_induction.
Variable P : value -> Prop.
Hypothesis Hundef : P VUndef.
Hypothesis Hnull : P VNull.
Hypothesis Hbool : forall b, P (VBool b).
Hypothesis Hnum : forall z, P (VNum z).
Hypothesis Hstr : forall s, P (VStr s).
Hypothesis Harr : forall es, Forall P es -> P (VArr es).
Hypothesis Hobj : forall ps, Forall (fun kv => P (snd kv)) ps -> P (VObj ps).

Fixpoint value_deep_ind (v : value) : P v :=
  match v with
  | VUndef => Hundef
  | VNull => Hnull
  | VBool b => Hbool b
  | VNum z => Hnum z
  | VStr s => Hstr s
  | VArr es =>
      Harr ((fix elems (l : list value) : Forall P l :=
               match l with
               | [] => Forall_nil _
               | e :: l' => Forall_cons e (value_deep_ind e) (elems l')
               end) es)
  | VObj ps =>
      Hobj ((fix props (l : object) : Forall (fun kv => P (snd kv)) l :=
               match l with
               | [] => Forall_nil _
               | kv :: l' => Forall_cons kv (value_deep_ind (snd kv)) (props l')
               end) ps)
  end.
End value_induction.

(** [o[k]] on an own property; [None] when the object has no such key. *)
Fixpoint get (k : string) (o : object) : option value :=
  match o with
  | [] => None
  | (k', v) :: o' => if String.eqb k k' then Some v else get k o'
  end.

(** [o[k] = v]: an existing property keeps its place, a new one goes last. *)
Fixpoint set_prop (k : string) (v : value) (o : object) : object :=
  match o with
  | [] => [(k, v)]
  | (k', v') :: o' =>
      if String.eqb k k' then (k', v) :: o' else (k', v') :: set_prop k v o'
  end.

(** [Array.isArray(v) && v.length === 1], giving the sole element. *)
Definition sole_element (v : value) : option value :=
  match v with
  | VArr [y] => Some y
  | _ => None
  end.

Definition is_singleton (v : value) : bool :=
  match sole_element v with Some _ => true | None => false end.

(** ToBoolean. *)
Definition truthy (v : value) : bool :=
  match v with
  | VUndef | VNull => false
  | VBool b => b
  | VNum z => negb (Z.eqb z 0)
  | VStr s => negb (String.eqb s "")
  | VArr _ | VObj _ => true
  end.

(** ToString, as the template literals and [parseInt] apply it.  A number
    is printed in plain decimal, as the language prints a whole number of
    magnitude below 10^21; the exponent form it uses from there on is not
    modelled. *)
Fixpoint to_string (v : value) : string :=
  match v with
  | VUndef => "undefined"
  | VNull => "null"
  | VBool true => "true"
  | VBool false => "false"
  | VNum z => NilZero.string_of_int (Z.to_int z)
  | VStr s => s
  | VArr es =>
      String.concat ","
        (map (fun e => match e with
                       | VUndef | VNull => ""
                       | _ => to_string e
                       end) es)
  | VObj _ => "[object Object]"
  end.

(** The white space [parseInt] skips, among the code units below 256. *)
Definition is_space (c : ascii) : bool :=
  let n := nat_of_ascii c in
  ((9 <=? n) && (n <=? 13) || (n =? 32) || (n =? 160))%nat.

Fixpoint skip_space (s : string) : string :=
  match s with
  | String c s' => if is_space c then skip_space s' else s
  | EmptyString => s
  end.

Definition digit_of (c : ascii) : option Z :=
  let n := nat_of_ascii c in
  if ((48 <=? n) && (n <=? 57))%nat then Some (Z.of_nat (n - 48)) else None.

(** The leading decimal digits of [s] read as a number; [acc] is [None]
    until a digit has been seen. *)
Fixpoint leading_digits (s : string) (acc : option Z) : option Z :=
  match s with
  | String c s' =>
      match digit_of c with
      | Some d =>
          leading_digits s'
            (Some (10 * match acc with Some a => a | None => 0 end + d)%Z)
      | None => acc
      end
  | EmptyString => acc
  end.

(** [parseInt(s, 10)]; [None] is NaN.  The result is the exact whole
    number the digits spell; the language gives the nearest double, which is
    that number up to 2^53 - 1 and may differ from it beyond. *)
Definition parseInt10 (s : string) : option Z :=
  match skip_space s with
  | String "-" s' => option_map Z.opp (leading_digits s' None)
  | String "+" s' => leading_digits s' None
  | s' => leading_digits s' None
  end.

(** [n || 0] on the result of [parseInt]: NaN and 0 are falsy. *)
Definition or_zero (n : option Z) : Z :=
  match n with
  | Some z => if Z.eqb z 0 then 0%Z else z
  | None => 0%Z
  end.

Definition index_key (i : nat) : string := NilZero.string_of_uint (Nat.to_uint i).

Fixpoint indexed (i : nat) (es : list value) : object :=
  match es with
  | [] => []
  | e :: es' => (index_key i, e) :: indexed (S i) es'
  end.

Fixpoint chars (s : string) : list value :=
  match s with
  | EmptyString => []
  | String c s' => VStr (String c EmptyString) :: chars s'
  end.

(** The own enumerable properties a spread [{...v}] copies. *)
Definition own_props (v : value) : object :=
  match v with
  | VObj ps => ps
  | VArr es => indexed 0 es
  | VStr s => indexed 0 (chars s)
  | _ => []
  end.

(** [{...src}] laid over the properties already written to [dst]. *)
Definition spread (src dst : object) : object :=
  fold_left (fun o kv => set_prop (fst kv) (snd kv) o) src dst.

(** What a throw statement or a rejection carries. *)
Inductive thrown : Type :=
| JsError (message : string)      (* [new Error(message)] *)
| JsTypeError (at_ : string)      (* a runtime TypeError, with the property or call at fault *)
| JsValue (v : value).            (* any other value, thrown as it is *)

Inductive outcome (A : Type) : Type :=
| Return (a : A)
| Throw (e : thrown).
Arguments Throw {A} e.

(** [v[k]] for the property names this program reads.  None of them is an
    index, [length] or a built-in method, so off an array, a string, a number
    or a boolean the read gives [undefined]. *)
Definition prop (k : string) (v : value) : value :=
  match v with
  | VObj ps => match get k ps with Some x => x | None => VUndef end
  | _ => VUndef
  end.

Definition nullish (v : value) : bool :=
  match v with
  | VUndef | VNull => true
  | _ => false
  end.

(** The same read where the source does not guard it: off [undefined] or
    [null] it throws. *)
Definition read (k : string) (v : value) : outcome value :=
  if nullish v then Throw (JsTypeError k) else Return (prop k v).

(** [v.k = x], reached only where [v.k] was read as truthy before. *)
Definition assign (k : string) (x : value) (v : value) : value :=
  match v with
  | VObj ps => VObj (set_prop k x ps)
  | _ => v
  end.

End JS.
Import JS.

(** ** Process state and effects *)

(** The client handle made by [new Ebay({ app_id })].  The library behind it
    is outside this repository: [respond] stands for what its [get] hands to
    the callback, the pair [(err, data)], and the callback is taken to run
    once. *)
Record client : Type := Client {
  client_config : value;
  respond : string -> object -> value * value
}.

(** What a run leaves behind: the remote calls issued and the response
    bodies handed to a parser, oldest first. *)
Inductive event : Type :=
| RemoteCall (api : string) (params : object)
| ParserCall (response : value).

(** [ebay] is the module-level [let ebay = null]. *)
Record world : Type := World {
  ebay : option client;
  trace : list event
}.

Definition run (A : Type) : Type := world -> outcome A * world.

Definition ret {A} (a : A) : run A := fun w => (Return a, w).

Definition throw {A} (e : thrown) : run A := fun w => (Throw e, w).

Definition bind {A B} (m : run A) (k : A -> run B) : run B :=
  fun w =>
    match m w with
    | (Return a, w') => k a w'
    | (Throw e, w') => (Throw e, w')
    end.

Definition lift {A} (o : outcome A) : run A := fun w => (o, w).

Definition handle : run (option client) := fun w => (Return (ebay w), w).

Definition emit (e : event) : run unit :=
  fun w => (Return tt, World (ebay w) (trace w ++ [e])).

Declare Scope run_scope.
Delimit Scope run_scope with run.
Notation "x <- m ;; k" := (bind m (fun x => k))
  (at level 61, m at next level, right associativity) : run_scope.
Notation "m ;; k" := (bind m (fun _ => k))
  (at level 61, right associativity) : run_scope.
Local Open Scope run_scope.

(** How a promise ends.  [Pending] is a promise that is never settled
    because the callback itself threw [e] into the client library. *)
Inductive promise : Type :=
| Resolved (v : value)
| Rejected (e : thrown)
| Pending (e : thrown).

(** [.then(f)] on a promise settled with the outcome of [f]. *)
Definition settle (o : outcome value) : promise :=
  match o with
  | Return v => Resolved v
  | Throw e => Rejected e
  end.

Definition remote_calls (w : world) : list (string * object) :=
  flat_map (fun e => match e with
                     | RemoteCall api params => [(api, params)]
                     | ParserCall _ => []
                     end) (trace w).

Definition parser_calls (w : world) : list value :=
  flat_map (fun e => match e with
                     | RemoteCall _ _ => []
                     | ParserCall response => [response]
                     end) (trace w).

(** ** The module *)

(** [forceArray = arr => [].concat(arr !== undefined ? arr : [])]:
    [concat] spreads an array argument and appends any other value. *)
Definition forceArray (arr : value) : value :=
  match arr with
  | VUndef => VArr []
  | VArr es => VArr es
  | _ => VArr [arr]
  end.

(** The elements of [forceArray(v)]. *)
Definition forced (v : value) : list value :=
  match forceArray v with
  | VArr es => es
  | _ => []
  end.

(** [init({ appId })], with [Ebay] the constructor of the client library. *)
Definition init (Ebay : value -> client) (config : value) : run unit :=
  appId <- lift (read "appId" config) ;;
  fun w => (Return tt, World (Some (Ebay (VObj [("app_id", appId)]))) (trace w)).

Definition findOperations : list string :=
  [ "findCompletedItems";
    "findItemsAdvanced";
    "findItemsByCategory";
    "findItemsByKeywords";
    "findItemsByProduct";
    "findItemsIneBayStores";
    "getHistograms";
    "getSearchKeywordsRecommendation";
    "getVersion" ].

Definition validOperation (op : string) : bool :=
  existsb (String.eqb op) findOperations.

Definition productIdTypes : list string :=
  [ "ReferenceID"; "ISBN"; "UPC"; "EAN" ].

(** [includes] compares with SameValueZero, so only a string can match. *)
Definition validProductIdType (type : value) : bool :=
  match type with
  | VStr s => existsb (String.eqb s) productIdTypes
  | _ => false
  end.

(** ** The normaliser *)

(** [flatten]:
<<
    for (r in arr) {
        if (Array.isArray(arr[r]) && arr[r].length === 1)
            arr[r] = flatten(arr[r][0]);
    }
    return arr;
>>
    [for-in] walks the properties of an object and the indices of an array;
    over a string it walks the indices of its characters, none of which is
    an array, and over any other value it walks nothing.  The key [r] is read
    for the assignment target before the inner call runs, so the undeclared
    loop variable does not disturb the walk. *)
Fixpoint flatten (arr : value) : value :=
  match arr with
  | VObj ps =>
      VObj (map (fun kv : string * value =>
                   let (r, c) := kv in
                   (r, match c with
                       | VArr [y] => flatten y
                       | _ => c
                       end)) ps)
  | VArr es =>
      VArr (map (fun c => match c with
                          | VArr [y] => flatten y
                          | _ => c
                          end) es)
  | _ => arr
  end.

(** [a === 'Failure'] and the like. *)
Definition is_string (s : string) (v : value) : bool :=
  match v with
  | VStr s' => String.eqb s' s
  | _ => false
  end.

(** The guard [searchResult && searchResult.item]. *)
Definition has_item (searchResult : value) : bool :=
  truthy searchResult && truthy (prop "item" searchResult).

(** [findByProductParser].  The assignment to [searchResult.item] updates the
    object that [response.searchResult] refers to, so the thrown [response]
    carries it. *)
Definition findByProductParser (response : value) : outcome value :=
  if nullish response then Throw (JsTypeError "ack") else
  let ack := prop "ack" response in
  let version := prop "version" response in
  let timestamp := prop "timestamp" response in
  let searchResult := prop "searchResult" response in
  let paginationOutput := prop "paginationOutput" response in
  let itemSearchURL := prop "itemSearchURL" response in
  let coerced := has_item searchResult in
  let searchResult :=
    if coerced
    then assign "item" (forceArray (prop "item" searchResult)) searchResult
    else searchResult in
  let response :=
    if coerced then assign "searchResult" searchResult response else response in
  if is_string "Failure" ack then Throw (JsValue response) else
  match read "@count" searchResult with
  | Throw e => Throw e
  | Return count =>
      match
        (if has_item searchResult
         then match prop "item" searchResult with
              | VArr items => Return (VArr (map flatten items))
              | _ => Throw (JsTypeError "map")
              end
         else Return (VArr []))
      with
      | Throw e => Throw e
      | Return found =>
          Return (VObj
            [ ("ack", ack);
              ("version", version);
              ("timestamp", timestamp);
              ("searchResultCount", VNum (or_zero (parseInt10 (to_string count))));
              ("searchResult", found);
              ("paginationOutput", paginationOutput);
              ("itemSearchUrl", itemSearchURL) ])
      end
  end.

(** The object literal
    [{ ...other, 'OPERATION-NAME': operation, ...baseParams }]. *)
Definition request_params (operation : string) (baseParams : object)
    (other : value) : object :=
  spread baseParams
    (set_prop "OPERATION-NAME" (VStr operation)
       (spread (own_props other) [])).

(** [findCall(operation)(parser)(baseParams)(other)].  The executor of the
    promise runs at once; a throw inside it (the read of [get] off a [null]
    handle) rejects the promise, while a throw inside the callback leaves it
    unsettled. *)
Definition findCall (operation : string) (parser : value -> outcome value)
    (baseParams : object) (other : value) : run promise :=
  if negb (validOperation operation)
  then throw (JsError ("invalid operation " ++ operation ++ " use one of ["
                         ++ String.concat " " findOperations ++ "]"))
  else
    let params := request_params operation baseParams other in
    h <- handle ;;
    match h with
    | None => ret (Rejected (JsTypeError "get"))
    | Some c =>
        emit (RemoteCall "finding" params) ;;
        let (err, data) := respond c "finding" params in
        if truthy err then ret (Rejected (JsValue err))
        else
          match read (operation ++ "Response") (flatten data) with
          | Throw e => ret (Pending e)
          | Return response =>
              if negb (truthy response)
              then ret (Rejected (JsError "eBay Response Empty"))
              else emit (ParserCall response) ;; ret (settle (parser response))
          end
    end.

Definition callFindByProduct (type id : value) : outcome (value -> run promise) :=
  if negb (validProductIdType type)
  then Throw (JsError ("unknown type " ++ to_string type ++ ", use one of ["
                         ++ String.concat " " productIdTypes ++ "]"))
  else Return (findCall "findItemsByProduct" findByProductParser
                 [("productId.@type", type); ("productId", id)]).

Definition callFindItemsAdvanced (str : value) : value -> run promise :=
  findCall "findItemsAdvanced" findByProductParser
    [("descriptionSearch", VBool true); ("keywords", str)].

(** What [findItemsByProduct] returns: a function that waits for the
    identifier, or the promise of a call already issued. *)
Inductive product_search : Type :=
| AwaitingId (lookup : value -> outcome (value -> run promise))
| Started (p : promise).

(** The default parameter [other = {}]. *)
Definition or_empty (other : value) : value :=
  match other with
  | VUndef => VObj []
  | _ => other
  end.

Definition findItemsByProduct (type id other : value) : run product_search :=
  let other := or_empty other in
  if negb (truthy id)
  then ret (AwaitingId (fun lookupId => callFindByProduct type lookupId))
  else
    f <- lift (callFindByProduct type id) ;;
    p <- f other ;;
    ret (Started p).

(** [r(lookupId)]: a promise is not callable. *)
Definition apply_id (r : product_search) (lookupId : value)
    : outcome (value -> run promise) :=
  match r with
  | AwaitingId lookup => lookup lookupId
  | Started _ => Throw (JsTypeError "call")
  end.

(** [findItemsByProduct(type)(id)(other)], the shape of the four wrappers. *)
Definition by_type (type : string) (id other : value) : run promise :=
  r <- findItemsByProduct (VStr type) VUndef VUndef ;;
  f <- lift (apply_id r id) ;;
  f other.

Definition findItemsByUpc (upc other : value) : run promise :=
  by_type "UPC" upc other.

Definition findItemsByReferenceId (refId other : value) : run promise :=
  by_type "ReferenceID" refId other.

Definition findItemsByIsbn (isbn other : value) : run promise :=
  by_type "ISBN" isbn other.

Definition findItemsByEan (ean other : value) : run promise :=
  by_type "EAN" ean other.

Definition findItemsByKeywords (keywords other : value) : run promise :=
  callFindItemsAdvanced keywords other.

(** ** The earlier revision

    One function, [findItemsByProduct], with the handle and the type checked
    up front and the response handled inside the callback.  [forceArray],
    [flatten], [init] and [productIdTypes] are the same text as above. *)
Module Legacy.

(** From the destructuring of [response] on, the callback runs the statements
    of [findByProductParser] with [reject(response)] for its [throw response]
    and [resolve] for its [return]; a TypeError raised there escapes the
    callback and settles nothing. *)
Definition deliver (o : outcome value) : promise :=
  match o with
  | Return v => Resolved v
  | Throw (JsValue response) => Rejected (JsValue response)
  | Throw e => Pending e
  end.

Definition findItemsByProduct (type id other : value) : run promise :=
  let other := or_empty other in
  h <- handle ;;
  match h with
  | None => throw (JsError "call ebay-find-api init first")
  | Some c =>
      if negb (validProductIdType type)
      then throw (JsError ("unknown type " ++ to_string type
                             ++ ", use ReferenceID, ISBN, UPC, or EAN"))
      else
        let params :=
          set_prop "productId" id
            (set_prop "productId.@type" type
               (set_prop "OPERATION-NAME" (VStr "findItemsByProduct")
                  (spread (own_props other) []))) in
        emit (RemoteCall "finding" params) ;;
        let (err, data) := respond c "finding" params in
        if truthy err then ret (Rejected (JsValue err))
        else
          match read "findItemsByProductResponse" (flatten data) with
          | Throw e => ret (Pending e)
          | Return response =>
              if negb (truthy response)
              then ret (Rejected (JsError "eBay Response Empty"))
              else ret (deliver (findByProductParser response))
          end
  end.

(** [findItemsByProduct.bind(this, 'UPC')]. *)
Definition findItemsByUpc (upc other : value) : run promise :=
  findItemsByProduct (VStr "UPC") upc other.

End Legacy.

(** What one pass of the loop body does to the value held at a key. *)
Definition flatten_at (c : value) : value :=
  match sole_element c with
  | Some y => flatten y
  | None => c
  end.

(** The property [k] of an object and the element [i] of an array, as the
    loop reads them through [arr[r]]. *)
Definition field (k : string) (v : value) : option value :=
  match v with
  | VObj ps => get k ps
  | _ => None
  end.

Definition element (i : nat) (v : value) : option value :=
  match v with
  | VArr es => nth_error es i
  | _ => None
  end.

(** The values the loop visits. *)
Definition children (v : value) : list value :=
  match v with
  | VObj ps => map snd ps
  | VArr es => es
  | _ => []
  end.

Definition array_length (v : value) : option nat :=
  match v with
  | VArr es => Some (List.length es)
  | _ => None
  end.

(** A singleton sequence whose sole element is again a singleton sequence. *)
Definition double_wrapped (c : value) : bool :=
  match sole_element c with
  | Some y => is_singleton y
  | None => false
  end.

Fixpoint size (v : value) : nat :=
  match v with
  | VArr es => S (list_sum (map size es))
  | VObj ps => S (list_sum (map (fun kv : string * value => size (snd kv)) ps))
  | _ => 1
  end.

(** The normaliser as the specification words it: a field holding a
    sequence of length one is replaced by the single element, "the
    replacement itself is checked again", at any depth; sequences of any
    other length are left untouched. *)
Fixpoint normalize_spec (c : value) : value :=
  match c with
  | VArr [y] => normalize_spec y
  | VObj ps =>
      VObj (map (fun kv : string * value =>
                   let (k, c') := kv in (k, normalize_spec c')) ps)
  | _ => c
  end.

Definition two_items : value :=
  VObj [("item", VArr [VObj [("itemId", VArr [VStr "1"])];
                       VObj [("itemId", VArr [VStr "2"])]]);
        ("ack", VArr [VStr "Success"])].

Definition wrapped_twice : value := VObj [("a", VArr [VArr [VNum 5]])].
Definition nested_object : value := VObj [("a", VObj [("b", VArr [VNum 5])])].

(** ** Sample data *)

(** A client whose [get] answers every call with [(err, data)]. *)
Definition answering (err data : value) : client :=
  Client (VObj [("app_id", VStr "APP-ID")]) (fun _ _ => (err, data)).

Definition fresh : world := World None [].

Definition serving (data : value) : world :=
  World (Some (answering VNull data)) [].

(** The message of the earlier revision's guard on the handle. *)
Definition NotInitialized : thrown := JsError "call ebay-find-api init first".

Definition EmptyResponse : thrown := JsError "eBay Response Empty".

(** The message of [callFindByProduct] for a type [s] outside the list. *)
Definition InvalidType (s : string) : thrown :=
  JsError ("unknown type " ++ s ++ ", use one of [ReferenceID ISBN UPC EAN]").

Definition empty_envelope : value :=
  VObj [("findItemsByProductResponse", VArr [VObj []])].

Definition no_searchResult : value :=
  VObj [("ack", VStr "Success"); ("version", VStr "1.13.0")].

Definition one_item_body : value :=
  VObj [("ack", VStr "Success");
        ("searchResult",
         VObj [("@count", VStr "1");
               ("item", VObj [("itemId", VStr "110")])])].

(** The same body as the service sends it, every field wrapped. *)
Definition one_item_wire : value :=
  VObj [("findItemsByProductResponse",
         VArr [VObj [("ack", VArr [VStr "Success"]);
                     ("searchResult",
                      VArr [VObj [("@count", VStr "1");
                                  ("item", VArr [VObj [("itemId", VArr [VStr "110"])]])]])]])].

(** The same answer to a keyword search. *)
Definition one_item_found : value :=
  VObj [("findItemsAdvancedResponse",
         VArr [VObj [("ack", VArr [VStr "Success"]);
                     ("searchResult",
                      VArr [VObj [("@count", VStr "1");
                                  ("item", VArr [VObj [("itemId", VArr [VStr "110"])]])]])]])].

(** The record the parser makes of [one_item_body]. *)
Definition one_item_result : value :=
  VObj [("ack", VStr "Success"); ("version", VUndef); ("timestamp", VUndef);
        ("searchResultCount", VNum 1);
        ("searchResult", VArr [VObj [("itemId", VStr "110")]]);
        ("paginationOutput", VUndef); ("itemSearchUrl", VUndef)].

Definition failure_body : value :=
  VObj [("ack", VStr "Failure");
        ("errorMessage", VObj [("error", VObj [("errorId", VStr "36")])])].

(** A page of two items out of 250, after the dispatcher's pass: the
    sequence of two is left as the service sent it. *)
Definition two_item_searchResult : object :=
  [("@count", VStr "250");
   ("item", VArr [VObj [("itemId", VArr [VStr "1"])];
                  VObj [("itemId", VArr [VStr "2"])]])].

Definition two_item_body : value :=
  VObj [("ack", VStr "Success"); ("searchResult", VObj two_item_searchResult)].

(** [Number.MAX_SAFE_INTEGER]: up to here the whole numbers modelled and the
    doubles of the language print and parse alike. *)
Definition max_safe_integer : Z := 9007199254740991.

(** A run that issued no more than one remote call and handed no more
    bodies to a parser than it issued calls. *)
Definition one_call_at_most (w w' : world) : Prop :=
  exists calls parsed,
    (ebay w' = ebay w /\
     remote_calls w' = remote_calls w ++ calls /\
     parser_calls w' = parser_calls w ++ parsed) /\
    List.length calls <= 1 /\
    List.length parsed <= List.length calls.

(** ** Shapes and revisions compared *)

(** The shape the service sends its bodies in, "object of arrays" in the
    words of the source: a field of an object holds a scalar or a sequence,
    never an object directly, and a sequence of length one holds a scalar or
    an object of the same shape, never another sequence.  Sequences of any
    other length are not looked into. *)
Fixpoint wire_shaped (v : value) : bool :=
  match v with
  | VObj ps =>
      forallb (fun kv : string * value =>
                 let (_, c) := kv in
                 match c with
                 | VArr [y] =>
                     match y with
                     | VArr _ => false
                     | _ => wire_shaped y
                     end
                 | VObj _ => false
                 | _ => true
                 end) ps
  | VArr _ => false
  | _ => true
  end.

(** The same test on the value one field holds. *)
Definition wire_field (c : value) : bool :=
  match c with
  | VArr [y] =>
      match y with
      | VArr _ => false
      | _ => wire_shaped y
      end
  | VObj _ => false
  | _ => true
  end.

(** How the promise of [findCall] reads in the earlier revision, where the
    parser's statements run inside the callback: a TypeError raised there
    settles nothing. *)
Definition in_callback (p : promise) : promise :=
  match p with
  | Rejected (JsTypeError t) => Pending (JsTypeError t)
  | _ => p
  end.

(** * Properties *)

(** ** Objects as association lists *)

Lemma get_map_values (f : value -> value) (k : string) (ps : object) :
  get k (map (fun kv => (fst kv, f (snd kv))) ps) = option_map f (get k ps).
Proof.
  induction ps as [|[k' c] ps IH]; simpl; [reflexivity|].
  destruct (String.eqb k k'); [reflexivity | exact IH].
Qed.

Lemma get_set_prop (k k' : string) (x : value) (o : object) :
  get k (set_prop k' x o) = if String.eqb k k' then Some x else get k o.
Proof.
  induction o as [|[k0 v0] o IH]; simpl.
  - destruct (String.eqb k k'); reflexivity.
  - destruct (String.eqb_spec k' k0) as [->|Hne]; simpl.
    + destruct (String.eqb k k0); reflexivity.
    + destruct (String.eqb_spec k k0) as [->|Hne'].
      * destruct (String.eqb_spec k0 k') as [E|_]; [congruence | reflexivity].
      * exact IH.
Qed.

Lemma map_fixed_iff (A : Type) (f : A -> A) (l : list A) :
  map f l = l <-> Forall (fun x => f x = x) l.
Proof.
  induction l as [|a l IH]; simpl; split; intro H.
  - constructor.
  - reflexivity.
  - injection H as Ha Hl. constructor; [exact Ha | apply IH, Hl].
  - inversion H as [|? ? Ha Hl]; subst. f_equal; [exact Ha | apply IH, Hl].
Qed.

Lemma forallb_through_map (A B : Type) (f : A -> B) (p : B -> bool) (q : A -> bool)
    (l : list A) :
  (forall a, p (f a) = q a) -> forallb p (map f l) = forallb q l.
Proof.
  intro H. induction l as [|a l IH]; simpl; [reflexivity|].
  now rewrite H, IH.
Qed.

(** ** The normaliser *)

Lemma flatten_at_cases (c : value) :
  flatten_at c = match c with VArr [y] => flatten y | _ => c end.
Proof. destruct c as [| | | | |[|y [|z es]]|]; reflexivity. Qed.

Lemma flatten_obj (ps : object) :
  flatten (VObj ps) = VObj (map (fun kv => (fst kv, flatten_at (snd kv))) ps).
Proof.
  simpl. f_equal. apply map_ext. intros [r c]. simpl.
  now rewrite flatten_at_cases.
Qed.

Lemma flatten_arr (es : list value) :
  flatten (VArr es) = VArr (map flatten_at es).
Proof.
  simpl. f_equal. apply map_ext. intro c. now rewrite flatten_at_cases.
Qed.

Lemma children_flatten (v : value) :
  children (flatten v) = map flatten_at (children v).
Proof.
  destruct v; try reflexivity.
  - now rewrite flatten_arr.
  - rewrite flatten_obj. simpl. rewrite !map_map. reflexivity.
Qed.

Lemma array_length_flatten (v : value) :
  array_length (flatten v) = array_length v.
Proof.
  destruct v; try reflexivity.
  rewrite flatten_arr. simpl. now rewrite length_map.
Qed.

Lemma is_singleton_length (v : value) :
  is_singleton v = match array_length v with Some 1 => true | _ => false end.
Proof. destruct v as [| | | | |[|y [|z es]]|]; reflexivity. Qed.

(** The normaliser returns a sequence of length one exactly when it was
    given one. *)
Lemma is_singleton_flatten (v : value) :
  is_singleton (flatten v) = is_singleton v.
Proof. now rewrite !is_singleton_length, array_length_flatten. Qed.

Lemma is_singleton_flatten_at (c : value) :
  is_singleton (flatten_at c) = double_wrapped c.
Proof.
  unfold flatten_at, double_wrapped.
  destruct (sole_element c) as [y|] eqn:E.
  - apply is_singleton_flatten.
  - unfold is_singleton. now rewrite E.
Qed.

Lemma list_sum_map_le (A : Type) (f g : A -> nat) (l : list A) :
  Forall (fun x => f x <= g x) l -> list_sum (map f l) <= list_sum (map g l).
Proof. induction 1; simpl; lia. Qed.

(** The normaliser never grows a value; the second half is the loop body. *)
Lemma size_flatten (v : value) :
  size (flatten v) <= size v /\ size (flatten_at v) <= size v.
Proof.
  induction v as [| | | | |es IH|ps IH] using value_deep_ind;
    try (split; unfold flatten_at; simpl; lia).
  - split.
    + rewrite flatten_arr. simpl. rewrite map_map.
      apply le_n_S, list_sum_map_le.
      eapply Forall_impl; [|exact IH]. now intros e [_ He].
    + rewrite flatten_at_cases.
      destruct es as [|y [|z es]]; try lia.
      inversion IH as [|? ? [Hy _] _]; subst. simpl. lia.
  - split; [|unfold flatten_at; simpl; lia].
    rewrite flatten_obj. simpl. rewrite map_map. simpl.
    apply le_n_S, list_sum_map_le.
    eapply Forall_impl; [|exact IH]. now intros kv [_ He].
Qed.

Lemma flatten_at_fixed_iff (c : value) :
  flatten_at c = c <-> is_singleton c = false.
Proof.
  split.
  - intro H. destruct (is_singleton c) eqn:E; [|reflexivity].
    destruct c as [| | | | |[|y [|z es]]|]; try discriminate.
    rewrite flatten_at_cases in H.
    pose proof (proj1 (size_flatten y)) as Hle.
    rewrite H in Hle. simpl in Hle. lia.
  - intro H. unfold flatten_at, is_singleton in *.
    destruct (sole_element c); [discriminate | reflexivity].
Qed.

(** A value is left as it is exactly when none of the values it holds
    directly is a sequence of length one. *)
Lemma flatten_fixed_iff (v : value) :
  flatten v = v <->
  forallb (fun c => negb (is_singleton c)) (children v) = true.
Proof.
  rewrite forallb_forall.
  destruct v as [| | | | |es|ps]; simpl children;
    try (split; [intros _ c [] | reflexivity]).
  - rewrite flatten_arr. split.
    + intros H c Hc. injection H as H. rewrite map_fixed_iff, Forall_forall in H.
      apply negb_true_iff, flatten_at_fixed_iff, H, Hc.
    + intro H. f_equal. apply map_fixed_iff, Forall_forall. intros c Hc.
      apply flatten_at_fixed_iff, negb_true_iff, H, Hc.
  - rewrite flatten_obj. split.
    + intros H c Hc. injection H as H. rewrite map_fixed_iff, Forall_forall in H.
      apply in_map_iff in Hc as [[k c'] [<- Hin]].
      apply negb_true_iff, flatten_at_fixed_iff.
      specialize (H _ Hin). simpl in *. congruence.
    + intro H. f_equal. apply map_fixed_iff, Forall_forall. intros [k c] Hin.
      simpl. f_equal. apply flatten_at_fixed_iff, negb_true_iff, H.
      apply in_map_iff. now exists (k, c).
Qed.

(** C1, as the code has it.  Each field of an object and each element of an
    array that holds a sequence of length one [[y]] comes to hold
    [flatten y], the sole element with its own fields treated the same way;
    every other field, whether a sequence of another length, an object or a
    scalar, is left exactly as it was.  An object comes back as an object
    with the same keys in the same order, an array as an array of the same
    length, and anything else, a scalar sole element included, as it is.
    The replacement is not looked at again: [flatten y] is a sequence of
    length one whenever [y] is, so a field holding [[[x]]] ends up holding a
    sequence of length one, of [x] itself unless [x] is in turn [[z]], and
    then of [flatten z]. *)
Theorem flatten_replaces_direct_singletons (v : value) :
  (forall k, field k (flatten v) =
             match field k v with
             | Some (VArr [y]) => Some (flatten y)
             | held => held
             end) /\
  (forall i, element i (flatten v) =
             match element i v with
             | Some (VArr [y]) => Some (flatten y)
             | held => held
             end) /\
  (forall y, is_singleton (flatten y) = is_singleton y) /\
  match v with
  | VObj ps => exists qs, flatten v = VObj qs /\ map fst qs = map fst ps
  | VArr es => exists fs, flatten v = VArr fs /\ List.length fs = List.length es
  | _ => flatten v = v
  end /\
  (forall x, flatten (VArr [x]) =
             VArr [match x with
                   | VArr [z] => flatten z
                   | _ => x
                   end]).
Proof.
  split; [|split; [|split; [|split]]].
  - intro k. destruct v; try reflexivity.
    rewrite flatten_obj. simpl. rewrite get_map_values.
    destruct (get k props) as [[| | | | |[|y [|z es]]|]|]; reflexivity.
  - intro i. destruct v; try reflexivity.
    rewrite flatten_arr. simpl. rewrite nth_error_map.
    destruct (nth_error elems i) as [[| | | | |[|y [|z es]]|]|]; reflexivity.
  - exact is_singleton_flatten.
  - destruct v as [| | | | |es|ps]; try reflexivity.
    + rewrite flatten_arr. eexists. split; [reflexivity|]. apply length_map.
    + rewrite flatten_obj. eexists. split; [reflexivity|].
      rewrite map_map. reflexivity.
  - intro x. reflexivity.
Qed.

(** C1 as stated fails: a field holding [[[5]]] is left holding [[5]], one
    wrapper short of what collapsing every layer gives, and a sequence of
    length one inside a nested object is not reached at all. *)
Lemma flatten_leaves_inner_wrapper :
  field "a" (flatten wrapped_twice) = Some (VArr [VNum 5]) /\
  field "a" (normalize_spec wrapped_twice) = Some (VNum 5) /\
  flatten wrapped_twice <> normalize_spec wrapped_twice /\
  flatten nested_object = nested_object /\
  flatten nested_object <> normalize_spec nested_object.
Proof. repeat split; try reflexivity; discriminate. Qed.

(** C2, as the code has it.  A second pass changes nothing exactly when no
    field or element of the input holds a sequence of length one whose sole
    element is again a sequence of length one. *)
Theorem flatten_idempotent_iff (v : value) :
  flatten (flatten v) = flatten v <->
  forallb (fun c => negb (double_wrapped c)) (children v) = true.
Proof.
  rewrite flatten_fixed_iff, children_flatten.
  erewrite forallb_through_map; [reflexivity|].
  intro c. simpl. now rewrite is_singleton_flatten_at.
Qed.

Lemma flatten_idempotent_iff_witness :
  flatten (flatten two_items) = flatten two_items.
Proof. apply (proj2 (flatten_idempotent_iff two_items)). reflexivity. Defined.

(** C2 as stated fails: the second pass removes the wrapper the first one
    left. *)
Lemma flatten_not_idempotent :
  flatten (flatten wrapped_twice) <> flatten wrapped_twice.
Proof. discriminate. Qed.

(** ** Merging the parameters *)

Lemma get_absent (k : string) (o : object) :
  ~ In k (map fst o) -> get k o = None.
Proof.
  induction o as [|[k' v] o IH]; simpl; intro H; [reflexivity|].
  destruct (String.eqb_spec k k') as [->|_]; [tauto | apply IH; tauto].
Qed.

(** A spread writes its source over what is already there. *)
Lemma get_spread (k : string) (src dst : object) :
  NoDup (map fst src) ->
  get k (spread src dst) =
  match get k src with
  | Some x => Some x
  | None => get k dst
  end.
Proof.
  unfold spread. revert dst.
  induction src as [|[k0 v0] src IH]; simpl; intros dst Hnd; [reflexivity|].
  inversion Hnd as [|? ? Hnotin Hnd']; subst.
  rewrite IH by exact Hnd'. rewrite get_set_prop.
  destruct (String.eqb_spec k k0) as [->|_].
  - now rewrite get_absent.
  - reflexivity.
Qed.

Lemma get_request_params (k operation : string) (baseParams : object) (other : value) :
  NoDup (map fst baseParams) ->
  NoDup (map fst (own_props other)) ->
  get k (request_params operation baseParams other) =
  match get k baseParams with
  | Some x => Some x
  | None =>
      if String.eqb k "OPERATION-NAME" then Some (VStr operation)
      else get k (own_props other)
  end.
Proof.
  intros Hb Ho. unfold request_params.
  rewrite get_spread by exact Hb. rewrite get_set_prop, get_spread by exact Ho.
  destruct (get k (own_props other)); reflexivity.
Qed.

(** ** The dispatcher *)

(** One run of [findCall] with a handle in place and a supported operation. *)
Lemma findCall_initialised (operation : string) (parser : value -> outcome value)
    (baseParams : object) (other : value) (w : world) (c : client) :
  ebay w = Some c ->
  validOperation operation = true ->
  let params := request_params operation baseParams other in
  let sent := World (ebay w) (trace w ++ [RemoteCall "finding" params]) in
  findCall operation parser baseParams other w =
  let (err, data) := respond c "finding" params in
  if truthy err then (Return (Rejected (JsValue err)), sent)
  else
    match read (operation ++ "Response") (flatten data) with
    | Throw e => (Return (Pending e), sent)
    | Return response =>
        if negb (truthy response) then (Return (Rejected EmptyResponse), sent)
        else (Return (settle (parser response)),
              World (ebay w)
                (trace w ++ [RemoteCall "finding" params; ParserCall response]))
    end.
Proof.
  intros Hc Hop params sent. unfold findCall. rewrite Hop. simpl.
  fold params. unfold bind, handle, emit, ret. rewrite Hc. simpl.
  destruct (respond c "finding" params) as [err data].
  destruct (truthy err); [reflexivity|].
  destruct (read (operation ++ "Response") (flatten data)) as [response|e];
    [|reflexivity].
  destruct (truthy response); simpl; [|reflexivity].
  rewrite <- app_assoc. simpl. now rewrite Hc.
Qed.

(** [init] puts a handle in place and touches nothing else. *)
Lemma init_installs_handle (Ebay : value -> client) (config : value) (w : world) :
  nullish config = false ->
  init Ebay config w =
  (Return tt, World (Some (Ebay (VObj [("app_id", prop "appId" config)]))) (trace w)).
Proof.
  intro Hc. unfold init, bind, lift, read. now rewrite Hc.
Qed.

Lemma findCall_uninitialised (operation : string) (parser : value -> outcome value)
    (baseParams : object) (other : value) (w : world) :
  ebay w = None ->
  validOperation operation = true ->
  findCall operation parser baseParams other w =
  (Return (Rejected (JsTypeError "get")), w).
Proof.
  intros Hc Hop. unfold findCall. rewrite Hop. simpl.
  unfold bind, handle, ret. now rewrite Hc.
Qed.

Lemma remote_calls_app (w : world) (es : list event) :
  remote_calls (World (ebay w) (trace w ++ es)) =
  remote_calls w ++ remote_calls (World None es).
Proof. unfold remote_calls. simpl. apply flat_map_app. Qed.

Lemma parser_calls_app (w : world) (es : list event) :
  parser_calls (World (ebay w) (trace w ++ es)) =
  parser_calls w ++ parser_calls (World None es).
Proof. unfold parser_calls. simpl. apply flat_map_app. Qed.

Lemma nullish_flatten (v : value) : nullish (flatten v) = nullish v.
Proof. destruct v; reflexivity. Qed.

(** The caller's options: an object with properties [ps], or none given. *)
Lemma own_props_options (other : value) (ps : object) :
  other = VObj ps \/ other = VUndef /\ ps = [] ->
  own_props other = ps.
Proof. now intros [-> | [-> ->]]. Qed.

(** C6.  With a handle in place and a supported operation, one run of the
    dispatcher issues exactly one remote call, to the [finding] service, and
    the parameters it carries are the merge of the three sources: a key of
    [baseParams] has the value given there; failing that, [OPERATION-NAME] is
    the operation name; failing that, the key has the value the caller's
    options [ps] give it, if any.  The caller passes the options as an object
    or passes nothing. *)
Theorem findCall_sends_merged_params (operation : string)
    (parser : value -> outcome value) (baseParams : object) (other : value)
    (ps : object) (w : world) (c : client) :
  ebay w = Some c ->
  validOperation operation = true ->
  NoDup (map fst baseParams) ->
  NoDup (map fst ps) ->
  other = VObj ps \/ other = VUndef /\ ps = [] ->
  exists params,
    remote_calls (snd (findCall operation parser baseParams other w)) =
      remote_calls w ++ [("finding", params)] /\
    forall k,
      get k params =
      match get k baseParams with
      | Some x => Some x
      | None =>
          if String.eqb k "OPERATION-NAME" then Some (VStr operation)
          else get k ps
      end.
Proof.
  intros Hc Hop Hb Ho Hother.
  apply own_props_options in Hother.
  exists (request_params operation baseParams other).
  split.
  - rewrite (@findCall_initialised operation parser baseParams other w c Hc Hop).
    destruct (respond c "finding" _) as [err data].
    destruct (truthy err); [simpl; now rewrite remote_calls_app|].
    destruct (read _ _) as [response|e]; [|simpl; now rewrite remote_calls_app].
    destruct (negb (truthy response)); simpl; now rewrite remote_calls_app.
  - intro k. rewrite get_request_params; rewrite ?Hother; trivial.
Qed.

Ltac distinct_keys :=
  repeat (constructor; [simpl; intuition discriminate|]); constructor.

Lemma findCall_sends_merged_params_witness :
  exists params,
    remote_calls
      (snd (findCall "findItemsByProduct" findByProductParser
              [("productId.@type", VStr "UPC"); ("productId", VStr "12")]
              (VObj [("productId", VStr "zz"); ("OPERATION-NAME", VStr "x");
                     ("sortOrder", VStr "PricePlusShippingLowest")])
              (serving empty_envelope))) =
      remote_calls (serving empty_envelope) ++ [("finding", params)] /\
    forall k,
      get k params =
      match get k [("productId.@type", VStr "UPC"); ("productId", VStr "12")] with
      | Some x => Some x
      | None =>
          if String.eqb k "OPERATION-NAME" then Some (VStr "findItemsByProduct")
          else get k [("productId", VStr "zz"); ("OPERATION-NAME", VStr "x");
                      ("sortOrder", VStr "PricePlusShippingLowest")]
      end.
Proof.
  apply (@findCall_sends_merged_params "findItemsByProduct" findByProductParser
           _ (VObj [("productId", VStr "zz"); ("OPERATION-NAME", VStr "x");
                    ("sortOrder", VStr "PricePlusShippingLowest")])
           _ (serving empty_envelope) (answering VNull empty_envelope)).
  - reflexivity.
  - reflexivity.
  - distinct_keys.
  - distinct_keys.
  - left. reflexivity.
Defined.

(** C4, as the code has it.  When the transport reports no error, hands over
    a body other than [undefined] or [null], and the operation's envelope
    field of the normalised body is absent or falsy ([undefined], [null],
    [false], [0] or the empty string), the promise is rejected with the
    empty-response error, the parser is not called, and the one remote call
    is all that was done. *)
Theorem findCall_rejects_falsy_envelope (operation : string)
    (parser : value -> outcome value) (baseParams : object) (other : value)
    (w : world) (c : client) (err data : value) :
  ebay w = Some c ->
  validOperation operation = true ->
  respond c "finding" (request_params operation baseParams other) = (err, data) ->
  truthy err = false ->
  nullish data = false ->
  truthy (prop (operation ++ "Response") (flatten data)) = false ->
  fst (findCall operation parser baseParams other w) = Return (Rejected EmptyResponse) /\
  parser_calls (snd (findCall operation parser baseParams other w)) = parser_calls w /\
  remote_calls (snd (findCall operation parser baseParams other w)) =
    remote_calls w ++ [("finding", request_params operation baseParams other)].
Proof.
  intros Hc Hop Hr Herr Hdata Hfalsy.
  rewrite (@findCall_initialised operation parser baseParams other w c Hc Hop).
  rewrite Hr, Herr. unfold read. rewrite nullish_flatten, Hdata, Hfalsy. simpl.
  rewrite parser_calls_app, remote_calls_app. simpl.
  now rewrite app_nil_r.
Qed.

Lemma findCall_rejects_falsy_envelope_witness :
  fst (findCall "findItemsByProduct" findByProductParser [] VUndef (serving (VObj [])))
    = Return (Rejected EmptyResponse) /\
  parser_calls
    (snd (findCall "findItemsByProduct" findByProductParser [] VUndef (serving (VObj []))))
    = parser_calls (serving (VObj [])) /\
  remote_calls
    (snd (findCall "findItemsByProduct" findByProductParser [] VUndef (serving (VObj []))))
    = remote_calls (serving (VObj [])) ++
        [("finding", request_params "findItemsByProduct" [] VUndef)].
Proof.
  apply (@findCall_rejects_falsy_envelope "findItemsByProduct" findByProductParser
           [] VUndef (serving (VObj [])) (answering VNull (VObj [])) VNull (VObj []));
    reflexivity.
Defined.

(** C4 as stated fails for the empty mapping: it is truthy, so it is handed
    to the parser, and the rejection is the parser's TypeError. *)
Lemma empty_mapping_reaches_parser :
  prop "findItemsByProductResponse" (flatten empty_envelope) = VObj [] /\
  fst (findCall "findItemsByProduct" findByProductParser [] VUndef
         (serving empty_envelope)) = Return (Rejected (JsTypeError "@count")) /\
  fst (findCall "findItemsByProduct" findByProductParser [] VUndef
         (serving empty_envelope)) <> Return (Rejected EmptyResponse) /\
  parser_calls
    (snd (findCall "findItemsByProduct" findByProductParser [] VUndef
            (serving empty_envelope))) = [VObj []].
Proof. repeat split; try reflexivity. discriminate. Qed.

(** ** The parser *)

Lemma prop_assign_other (k k' : string) (x v : value) :
  k <> k' -> prop k (assign k' x v) = prop k v.
Proof.
  intro Hne. destruct v; try reflexivity. simpl. rewrite get_set_prop.
  now destruct (String.eqb_spec k k').
Qed.

Lemma prop_assign_same (k : string) (x : value) (ps : object) :
  prop k (assign k x (VObj ps)) = x.
Proof. simpl. now rewrite get_set_prop, String.eqb_refl. Qed.

(** Only an object has a truthy property. *)
Lemma truthy_prop_object (k : string) (v : value) :
  truthy (prop k v) = true -> exists ps, v = VObj ps.
Proof. destruct v; try discriminate. intros _. now exists props. Qed.

Lemma has_item_object (searchResult : value) :
  has_item searchResult = true -> exists ps, searchResult = VObj ps.
Proof.
  unfold has_item. intro H. apply andb_true_iff in H as [_ H].
  now apply truthy_prop_object in H.
Qed.

Lemma forceArray_array (v : value) : exists es, forceArray v = VArr es.
Proof. destruct v; simpl; eauto. Qed.

Lemma forceArray_forced (v : value) : forceArray v = VArr (forced v).
Proof. unfold forced. now destruct (forceArray_array v) as [es ->]. Qed.

(** [searchResult] after the guarded assignment to its [item]. *)
Lemma has_item_after_coercion (ps : object) :
  has_item (assign "item" (forceArray (prop "item" (VObj ps))) (VObj ps)) = true.
Proof.
  unfold has_item. rewrite prop_assign_same, forceArray_forced. reflexivity.
Qed.

(** What the parser returns when it is not a failure acknowledgement and
    [searchResult] is there to be read. *)
Lemma parser_returns (response : value) :
  is_string "Failure" (prop "ack" response) = false ->
  nullish (prop "searchResult" response) = false ->
  findByProductParser response =
  Return (VObj
    [ ("ack", prop "ack" response);
      ("version", prop "version" response);
      ("timestamp", prop "timestamp" response);
      ("searchResultCount",
       VNum (or_zero (parseInt10
                        (to_string (prop "@count" (prop "searchResult" response))))));
      ("searchResult",
       VArr (if has_item (prop "searchResult" response)
             then map flatten (forced (prop "item" (prop "searchResult" response)))
             else []));
      ("paginationOutput", prop "paginationOutput" response);
      ("itemSearchUrl", prop "itemSearchURL" response) ]).
Proof.
  intros Hack Hsr. unfold findByProductParser.
  assert (Hresp : nullish response = false) by (destruct response; easy).
  rewrite Hresp, Hack.
  destruct (has_item (prop "searchResult" response)) eqn:Hitem.
  - destruct (has_item_object _ Hitem) as [ps Eps]. rewrite Eps.
    rewrite has_item_after_coercion.
    unfold read. cbn [nullish assign].
    fold (assign "item" (forceArray (prop "item" (VObj ps))) (VObj ps)).
    rewrite prop_assign_same, (@prop_assign_other "@count" "item") by discriminate.
    now rewrite forceArray_forced.
  - rewrite Hitem. unfold read. now rewrite Hsr.
Qed.

(** Without [searchResult] the unguarded read of ['@count'] throws. *)
Lemma parser_needs_searchResult (response : value) :
  nullish response = false ->
  is_string "Failure" (prop "ack" response) = false ->
  nullish (prop "searchResult" response) = true ->
  findByProductParser response = Throw (JsTypeError "@count").
Proof.
  intros Hresp Hack Hsr. unfold findByProductParser. rewrite Hresp, Hack.
  assert (Hitem : has_item (prop "searchResult" response) = false).
  { unfold has_item. destruct (prop "searchResult" response); easy. }
  rewrite Hitem. unfold read. now rewrite Hsr.
Qed.

(** X16.  With [searchResult] present, a ['@count'] that is absent or does
    not start with a decimal number gives a count of 0. *)
Lemma count_defaults_to_zero (response : value) :
  is_string "Failure" (prop "ack" response) = false ->
  nullish (prop "searchResult" response) = false ->
  parseInt10 (to_string (prop "@count" (prop "searchResult" response))) = None ->
  exists result,
    findByProductParser response = Return result /\
    prop "searchResultCount" result = VNum 0.
Proof.
  intros Hack Hsr Hnan. rewrite (parser_returns _ Hack Hsr), Hnan.
  eexists. split; reflexivity.
Qed.

Lemma absent_count_unparseable : parseInt10 (to_string VUndef) = None.
Proof. reflexivity. Qed.

(** C5, at the input where the code departs from it: a body with
    [ack: "Success"] and no [searchResult].  The parser does not return a
    record with an empty [searchResult] and a count of 0; the read of
    ['@count'] off [undefined] throws, and through the dispatcher the promise
    is rejected with that TypeError. *)
Theorem absent_searchResult_throws :
  prop "searchResult" no_searchResult = VUndef /\
  findByProductParser no_searchResult = Throw (JsTypeError "@count") /\
  fst (findCall "findItemsByProduct" findByProductParser [] VUndef
         (serving (VObj [("findItemsByProductResponse", VArr [no_searchResult])])))
    = Return (Rejected (JsTypeError "@count")).
Proof.
  split; [reflexivity|]. split; [|reflexivity].
  now apply parser_needs_searchResult.
Qed.

(** C8.  When [ack] is the string ["Failure"], the parser throws the
    response body itself and returns no record.  The body thrown is the
    response as the parser's own assignment left it: every field but
    [searchResult] is as it was given, and so is every field of
    [searchResult] but [item], which holds the coerced sequence when the
    guard of the assignment held; when it did not, the body is untouched. *)
Theorem failure_ack_throws_the_body (response : value) :
  is_string "Failure" (prop "ack" response) = true ->
  exists body,
    findByProductParser response = Throw (JsValue body) /\
    (forall k, k <> "searchResult" -> prop k body = prop k response) /\
    (forall k, k <> "item" ->
       prop k (prop "searchResult" body) = prop k (prop "searchResult" response)) /\
    prop "item" (prop "searchResult" body) =
      (if has_item (prop "searchResult" response)
       then forceArray (prop "item" (prop "searchResult" response))
       else prop "item" (prop "searchResult" response)) /\
    (has_item (prop "searchResult" response) = false -> body = response).
Proof.
  intro Hack. unfold findByProductParser.
  assert (Hresp : nullish response = false) by (destruct response; easy).
  rewrite Hresp, Hack.
  destruct (has_item (prop "searchResult" response)) eqn:Hitem.
  - destruct (has_item_object _ Hitem) as [ps Eps].
    assert (Hobj : exists rs, response = VObj rs).
    { apply (@truthy_prop_object "searchResult"). now rewrite Eps. }
    destruct Hobj as [rs ->]. rewrite Eps.
    eexists. split; [reflexivity|]. rewrite prop_assign_same.
    repeat split.
    + intros k Hk. now apply prop_assign_other.
    + intros k Hk. now apply prop_assign_other.
    + apply prop_assign_same.
    + discriminate.
  - exists response. repeat split; reflexivity.
Qed.

Lemma failure_ack_throws_the_body_witness :
  exists body,
    findByProductParser failure_body = Throw (JsValue body) /\
    (forall k, k <> "searchResult" -> prop k body = prop k failure_body) /\
    (forall k, k <> "item" ->
       prop k (prop "searchResult" body) = prop k (prop "searchResult" failure_body)) /\
    prop "item" (prop "searchResult" body) =
      (if has_item (prop "searchResult" failure_body)
       then forceArray (prop "item" (prop "searchResult" failure_body))
       else prop "item" (prop "searchResult" failure_body)) /\
    (has_item (prop "searchResult" failure_body) = false -> body = failure_body).
Proof. apply (failure_ack_throws_the_body failure_body). reflexivity. Defined.

(** Whatever record the parser returns has a sequence in [searchResult]. *)
Lemma parser_returns_sequence (response result : value) :
  findByProductParser response = Return result ->
  exists items, prop "searchResult" result = VArr items.
Proof.
  intro H. unfold findByProductParser in H.
  destruct (nullish response); [discriminate|].
  destruct (is_string _ _); [discriminate|].
  destruct (read _ _) as [count|e]; [|discriminate].
  destruct (has_item _).
  - destruct (prop "item" _); try discriminate.
    injection H as <-. eexists. reflexivity.
  - injection H as <-. eexists. reflexivity.
Qed.

(** ** The public functions *)

Lemma by_type_run (type : string) (id other : value) (w : world) :
  by_type type id other w =
  match callFindByProduct (VStr type) id with
  | Throw e => (Throw e, w)
  | Return f => f other w
  end.
Proof.
  unfold by_type, findItemsByProduct, bind, ret, lift. simpl.
  destruct (callFindByProduct (VStr type) id); reflexivity.
Qed.

Lemma findItemsByProduct_run (type id other : value) (w : world) :
  truthy id = true ->
  findItemsByProduct type id other w =
  match callFindByProduct type id with
  | Throw e => (Throw e, w)
  | Return f =>
      match f (or_empty other) w with
      | (Return p, w') => (Return (Started p), w')
      | (Throw e, w') => (Throw e, w')
      end
  end.
Proof.
  intro Hid. unfold findItemsByProduct, bind, ret, lift. rewrite Hid. simpl.
  destruct (callFindByProduct type id); reflexivity.
Qed.

Lemma unsupported_type (s : string) :
  ~ In s productIdTypes -> validProductIdType (VStr s) = false.
Proof.
  intro Hnot. unfold validProductIdType.
  destruct (existsb (String.eqb s) productIdTypes) eqn:E; [|reflexivity].
  apply existsb_exists in E as [t [Hin Heq]].
  apply String.eqb_eq in Heq. now subst.
Qed.

Lemma supported_type (s : string) :
  In s productIdTypes -> validProductIdType (VStr s) = true.
Proof.
  intro Hin. unfold validProductIdType. apply existsb_exists. exists s.
  split; [exact Hin | apply String.eqb_refl].
Qed.

Lemma callFindByProduct_unsupported (s : string) (id : value) :
  ~ In s productIdTypes -> callFindByProduct (VStr s) id = Throw (InvalidType s).
Proof.
  intro Hnot. unfold callFindByProduct. now rewrite unsupported_type.
Qed.

(** C7.  For a type string outside the four supported ones,
    [findItemsByProduct] called with an identifier throws the invalid-type
    error, whose message lists the supported types; called without one it
    hands back a function that throws that error for whatever identifier it
    is given; and the path the type-specific wrappers take throws it too.
    The world is left as it was each time: no remote call is issued. *)
Theorem unsupported_type_is_refused (s : string) (id other : value) (w : world) :
  ~ In s productIdTypes ->
  (if truthy id
   then findItemsByProduct (VStr s) id other w = (Throw (InvalidType s), w)
   else exists lookup,
          findItemsByProduct (VStr s) id other w = (Return (AwaitingId lookup), w) /\
          forall lookupId, lookup lookupId = Throw (InvalidType s)) /\
  by_type s id other w = (Throw (InvalidType s), w).
Proof.
  intro Hnot. split.
  - destruct (truthy id) eqn:Hid.
    + rewrite findItemsByProduct_run by exact Hid.
      now rewrite callFindByProduct_unsupported.
    + unfold findItemsByProduct, ret. rewrite Hid. simpl.
      eexists. split; [reflexivity|].
      intro lookupId. now apply callFindByProduct_unsupported.
  - rewrite by_type_run. now rewrite callFindByProduct_unsupported.
Qed.

Ltac not_listed := simpl; intuition discriminate.

Lemma unsupported_type_is_refused_witness :
  findItemsByProduct (VStr "SKU") (VStr "0885909950805") VUndef (serving empty_envelope)
  = (Throw (InvalidType "SKU"), serving empty_envelope) /\
  by_type "SKU" (VStr "0885909950805") VUndef (serving empty_envelope)
  = (Throw (InvalidType "SKU"), serving empty_envelope).
Proof.
  apply (@unsupported_type_is_refused "SKU" (VStr "0885909950805") VUndef
           (serving empty_envelope)).
  not_listed.
Defined.

(** C10.  Called with a type and no identifier, [findItemsByProduct] returns
    a function and checks nothing, whatever the type and whether or not a
    handle is in place; the function it returns is [callFindByProduct] at that
    type, so for ["SKU"] it is the later application to an identifier that
    throws.  For a supported type that application returns the function
    awaiting the options, still without a look at the handle. *)
Theorem partial_application_defers_validation :
  (forall type other w,
     exists lookup,
       findItemsByProduct type VUndef other w = (Return (AwaitingId lookup), w) /\
       forall lookupId, lookup lookupId = callFindByProduct type lookupId) /\
  (forall lookupId,
     callFindByProduct (VStr "SKU") lookupId = Throw (InvalidType "SKU")) /\
  (forall lookupId,
     callFindByProduct (VStr "UPC") lookupId =
     Return (findCall "findItemsByProduct" findByProductParser
               [("productId.@type", VStr "UPC"); ("productId", lookupId)])).
Proof.
  split; [|split].
  - intros type other w. eexists. split; [reflexivity|]. reflexivity.
  - intro lookupId. apply callFindByProduct_unsupported. not_listed.
  - reflexivity.
Qed.

(** X17.  Before [init], with a supported type, every search ends in the
    TypeError of reading [get] off the [null] handle, and the world is as it
    was: nothing is sent. *)
Lemma search_without_handle (w : world) (id other : value) :
  ebay w = None ->
  (forall type, In type productIdTypes ->
     by_type type id other w = (Return (Rejected (JsTypeError "get")), w)) /\
  findItemsByKeywords id other w = (Return (Rejected (JsTypeError "get")), w) /\
  (forall type, In type productIdTypes -> truthy id = true ->
     findItemsByProduct (VStr type) id other w =
     (Return (Started (Rejected (JsTypeError "get"))), w)).
Proof.
  intro Hnone. repeat split.
  - intros type Hin. rewrite by_type_run. unfold callFindByProduct.
    rewrite supported_type by exact Hin. simpl.
    now apply findCall_uninitialised.
  - unfold findItemsByKeywords, callFindItemsAdvanced.
    now apply findCall_uninitialised.
  - intros type Hin Hid. rewrite findItemsByProduct_run by exact Hid.
    unfold callFindByProduct. rewrite supported_type by exact Hin. simpl.
    now rewrite findCall_uninitialised.
Qed.

(** X18.  The earlier revision checks the handle first and says so: with no
    handle it throws the not-initialised error whatever it is given, the
    type included, and sends nothing. *)
Lemma legacy_search_without_handle (w : world) (type id other : value) :
  ebay w = None ->
  Legacy.findItemsByProduct type id other w = (Throw NotInitialized, w).
Proof.
  intro Hnone. unfold Legacy.findItemsByProduct, bind, handle.
  now rewrite Hnone.
Qed.

(** C3, at the input where the code departs from it: the six searches run
    before [init].  None issues a remote call, but none fails with the
    not-initialised error either: the promise is rejected with the TypeError
    of reading [get] off [null].  The earlier revision of
    [findItemsByProduct] throws the not-initialised error at this point. *)
Theorem search_before_init_rejects_with_TypeError :
  findItemsByUpc (VStr "0885909950805") VUndef fresh
    = (Return (Rejected (JsTypeError "get")), fresh) /\
  findItemsByReferenceId (VStr "53039031") VUndef fresh
    = (Return (Rejected (JsTypeError "get")), fresh) /\
  findItemsByIsbn (VStr "9780316769488") VUndef fresh
    = (Return (Rejected (JsTypeError "get")), fresh) /\
  findItemsByEan (VStr "5051892002172") VUndef fresh
    = (Return (Rejected (JsTypeError "get")), fresh) /\
  findItemsByKeywords (VStr "harry potter") VUndef fresh
    = (Return (Rejected (JsTypeError "get")), fresh) /\
  findItemsByProduct (VStr "UPC") (VStr "0885909950805") VUndef fresh
    = (Return (Started (Rejected (JsTypeError "get"))), fresh) /\
  JsTypeError "get" <> NotInitialized /\
  Legacy.findItemsByUpc (VStr "0885909950805") VUndef fresh
    = (Throw NotInitialized, fresh).
Proof.
  repeat split; try reflexivity. discriminate.
Qed.

(** A promise resolved by the dispatcher carries what the parser returned. *)
Lemma findCall_resolved (operation : string) (parser : value -> outcome value)
    (baseParams : object) (other : value) (w : world) (v : value) :
  fst (findCall operation parser baseParams other w) = Return (Resolved v) ->
  exists response, parser response = Return v.
Proof.
  unfold findCall. destruct (validOperation operation); [|discriminate]. simpl.
  unfold bind, handle, emit, ret. destruct (ebay w) as [c|]; [|discriminate].
  simpl. destruct (respond c _ _) as [err data].
  destruct (truthy err); [discriminate|].
  destruct (read _ _) as [response|e]; [|discriminate].
  destruct (truthy response); [|discriminate]. simpl.
  intro H. exists response. destruct (parser response); simpl in H; congruence.
Qed.

(** Every search that resolves does so with a record whose [searchResult]
    is a sequence. *)
Lemma resolved_searchResult_is_a_sequence (id other : value) (w : world) (v : value) :
  (forall type, fst (by_type type id other w) = Return (Resolved v) ->
     exists items, prop "searchResult" v = VArr items) /\
  (fst (findItemsByKeywords id other w) = Return (Resolved v) ->
     exists items, prop "searchResult" v = VArr items) /\
  (forall type, fst (findItemsByProduct type id other w) = Return (Started (Resolved v)) ->
     exists items, prop "searchResult" v = VArr items).
Proof.
  pose proof parser_returns_sequence as Hseq.
  repeat split.
  - intros type H. rewrite by_type_run in H. unfold callFindByProduct in H.
    destruct (validProductIdType _); [|discriminate]. simpl in H.
    apply findCall_resolved in H as [response H]. eauto.
  - intro H. apply findCall_resolved in H as [response H]. eauto.
  - intros type H. unfold findItemsByProduct, bind, ret, lift in H.
    destruct (truthy id); [|discriminate]. simpl in H.
    unfold callFindByProduct in H.
    destruct (validProductIdType _); [|discriminate]. simpl in H.
    destruct (findCall _ _ _ _ w) as [[p|e] w'] eqn:E; [|discriminate].
    simpl in H. injection H as ->.
    assert (E' : fst (findCall "findItemsByProduct" findByProductParser
                        [("productId.@type", type); ("productId", id)]
                        (or_empty other) w) = Return (Resolved v))
      by now rewrite E.
    apply findCall_resolved in E' as [response E']. eauto.
Qed.

(** C9.  Whatever record the parser returns has a sequence in
    [searchResult], and so has the record any of the searches resolves
    with.  In particular, for a body that is not a failure acknowledgement
    and whose [searchResult] holds a single object in [item] and the string
    ["1"] in ['@count'], the record has the one-element sequence of that
    item, normalised, and a count of 1; and when the service answers a
    type-specific search or a keyword search with such a body in the
    envelope, the search resolves with that record. *)
Theorem searchResult_is_a_sequence :
  (forall response result,
     findByProductParser response = Return result ->
     exists items, prop "searchResult" result = VArr items) /\
  (forall wrapped type id other w result,
     fst (by_type wrapped id other w) = Return (Resolved result) \/
     fst (findItemsByKeywords id other w) = Return (Resolved result) \/
     fst (findItemsByProduct type id other w) = Return (Started (Resolved result)) ->
     exists items, prop "searchResult" result = VArr items) /\
  (forall response sr it,
     is_string "Failure" (prop "ack" response) = false ->
     prop "searchResult" response = VObj sr ->
     get "item" sr = Some (VObj it) ->
     get "@count" sr = Some (VStr "1") ->
     exists result,
       findByProductParser response = Return result /\
       prop "searchResult" result = VArr [flatten (VObj it)] /\
       prop "searchResultCount" result = VNum 1) /\
  (forall type id other w c err data sr it,
     In type productIdTypes ->
     ebay w = Some c ->
     respond c "finding"
       (request_params "findItemsByProduct"
          [("productId.@type", VStr type); ("productId", id)] other) = (err, data) ->
     truthy err = false ->
     is_string "Failure"
       (prop "ack" (prop "findItemsByProductResponse" (flatten data))) = false ->
     prop "searchResult" (prop "findItemsByProductResponse" (flatten data)) = VObj sr ->
     get "item" sr = Some (VObj it) ->
     get "@count" sr = Some (VStr "1") ->
     exists result,
       fst (by_type type id other w) = Return (Resolved result) /\
       prop "searchResult" result = VArr [flatten (VObj it)] /\
       prop "searchResultCount" result = VNum 1) /\
  (forall keywords other w c err data sr it,
     ebay w = Some c ->
     respond c "finding"
       (request_params "findItemsAdvanced"
          [("descriptionSearch", VBool true); ("keywords", keywords)] other) = (err, data) ->
     truthy err = false ->
     is_string "Failure"
       (prop "ack" (prop "findItemsAdvancedResponse" (flatten data))) = false ->
     prop "searchResult" (prop "findItemsAdvancedResponse" (flatten data)) = VObj sr ->
     get "item" sr = Some (VObj it) ->
     get "@count" sr = Some (VStr "1") ->
     exists result,
       fst (findItemsByKeywords keywords other w) = Return (Resolved result) /\
       prop "searchResult" result = VArr [flatten (VObj it)] /\
       prop "searchResultCount" result = VNum 1).
Proof.
  assert (Hone : forall response sr it,
     is_string "Failure" (prop "ack" response) = false ->
     prop "searchResult" response = VObj sr ->
     get "item" sr = Some (VObj it) ->
     get "@count" sr = Some (VStr "1") ->
     exists result,
       findByProductParser response = Return result /\
       prop "searchResult" result = VArr [flatten (VObj it)] /\
       prop "searchResultCount" result = VNum 1).
  { intros response sr it Hack Hsr Hitem Hcount.
    rewrite parser_returns by (rewrite ?Hsr; easy).
    eexists. split; [reflexivity|].
    rewrite Hsr. unfold has_item. simpl. rewrite Hitem, Hcount. simpl.
    split; reflexivity. }
  assert (Hrun : forall operation base other w c err data sr it,
     validOperation operation = true ->
     ebay w = Some c ->
     respond c "finding" (request_params operation base other) = (err, data) ->
     truthy err = false ->
     is_string "Failure"
       (prop "ack" (prop (operation ++ "Response") (flatten data))) = false ->
     prop "searchResult" (prop (operation ++ "Response") (flatten data)) = VObj sr ->
     get "item" sr = Some (VObj it) ->
     get "@count" sr = Some (VStr "1") ->
     exists result,
       fst (findCall operation findByProductParser base other w)
         = Return (Resolved result) /\
       prop "searchResult" result = VArr [flatten (VObj it)] /\
       prop "searchResultCount" result = VNum 1).
  { intros operation base other w c err data sr it Hop Hc Hr Herr Hack Hsr Hitem Hcount.
    destruct (Hone _ sr it Hack Hsr Hitem Hcount) as (result & Hparse & Hres).
    exists result. split; [|exact Hres].
    rewrite (@findCall_initialised operation findByProductParser base other w c Hc Hop).
    rewrite Hr, Herr.
    assert (Henv : exists env, prop (operation ++ "Response") (flatten data) = VObj env).
    { apply (@truthy_prop_object "searchResult"). now rewrite Hsr. }
    destruct Henv as [env Henv].
    assert (Hdata : nullish (flatten data) = false).
    { destruct (flatten data); try discriminate; reflexivity. }
    unfold read. rewrite Hdata. rewrite Henv in *. simpl. now rewrite Hparse. }
  split; [exact parser_returns_sequence|]. split; [|split; [exact Hone|split]].
  - intros wrapped type id other w result H.
    destruct (resolved_searchResult_is_a_sequence id other w result) as (Ht & Hk & Hp).
    destruct H as [H|[H|H]]; eauto.
  - intros type id other w c err data sr it Hin Hc Hr Herr Hack Hsr Hitem Hcount.
    rewrite by_type_run. unfold callFindByProduct.
    rewrite supported_type by exact Hin. cbn [negb].
    now apply (Hrun "findItemsByProduct" _ other w c err data sr it).
  - intros keywords other w c err data sr it Hc Hr Herr Hack Hsr Hitem Hcount.
    unfold findItemsByKeywords, callFindItemsAdvanced.
    now apply (Hrun "findItemsAdvanced" _ other w c err data sr it).
Qed.

Lemma searchResult_is_a_sequence_witness :
  (exists items,
     prop "searchResult" one_item_result = VArr items) /\
  (exists items,
     prop "searchResult" one_item_result = VArr items) /\
  (exists result,
     findByProductParser one_item_body = Return result /\
     prop "searchResult" result = VArr [flatten (VObj [("itemId", VStr "110")])] /\
     prop "searchResultCount" result = VNum 1) /\
  (exists result,
     fst (by_type "UPC" (VStr "0885909950805") VUndef (serving one_item_wire))
       = Return (Resolved result) /\
     prop "searchResult" result = VArr [flatten (VObj [("itemId", VStr "110")])] /\
     prop "searchResultCount" result = VNum 1) /\
  (exists result,
     fst (findItemsByKeywords (VStr "harry potter") VUndef (serving one_item_found))
       = Return (Resolved result) /\
     prop "searchResult" result = VArr [flatten (VObj [("itemId", VStr "110")])] /\
     prop "searchResultCount" result = VNum 1).
Proof.
  pose proof searchResult_is_a_sequence as (H1 & H2 & H3 & H4 & H5).
  split; [|split; [|split; [|split]]].
  - apply (H1 one_item_body). reflexivity.
  - apply (H2 "UPC" (VStr "UPC") (VStr "0885909950805") VUndef (serving one_item_wire)).
    left. reflexivity.
  - apply (H3 one_item_body
             [("@count", VStr "1"); ("item", VObj [("itemId", VStr "110")])]);
      reflexivity.
  - apply (H4 "UPC" (VStr "0885909950805") VUndef (serving one_item_wire)
             (answering VNull one_item_wire) VNull one_item_wire
             [("@count", VStr "1"); ("item", VObj [("itemId", VStr "110")])]);
      try reflexivity.
    simpl. tauto.
  - apply (H5 (VStr "harry potter") VUndef (serving one_item_found)
             (answering VNull one_item_found) VNull one_item_found
             [("@count", VStr "1"); ("item", VObj [("itemId", VStr "110")])]);
      reflexivity.
Defined.

(** ** The earlier revision *)

(** X19.  With a handle in place, the earlier [findItemsByProduct] refuses
    an unsupported type before any remote call. *)
Lemma legacy_unsupported_type (s : string) (id other : value) (w : world) (c : client) :
  ebay w = Some c ->
  ~ In s productIdTypes ->
  Legacy.findItemsByProduct (VStr s) id other w =
  (Throw (JsError ("unknown type " ++ s ++ ", use ReferenceID, ISBN, UPC, or EAN")), w).
Proof.
  intros Hc Hnot. unfold Legacy.findItemsByProduct, bind, handle.
  rewrite Hc. now rewrite unsupported_type.
Qed.

(** Its parameters: the three literal entries over the caller's options. *)
Lemma legacy_params (k : string) (type id other : value) :
  NoDup (map fst (own_props other)) ->
  get k (set_prop "productId" id
           (set_prop "productId.@type" type
              (set_prop "OPERATION-NAME" (VStr "findItemsByProduct")
                 (spread (own_props other) [])))) =
  if String.eqb k "productId" then Some id
  else if String.eqb k "productId.@type" then Some type
  else if String.eqb k "OPERATION-NAME" then Some (VStr "findItemsByProduct")
  else get k (own_props other).
Proof.
  intro Ho. rewrite !get_set_prop, get_spread by exact Ho.
  destruct (get k (own_props other)); reflexivity.
Qed.

(** A failure acknowledgement on the wire ends in a rejection that carries
    the normalised body, in both revisions. *)
Lemma failure_rejects_with_body :
  let wire := VObj [("findItemsByProductResponse", VArr [failure_body])] in
  fst (findItemsByUpc (VStr "0885909950805") VUndef (serving wire))
    = Return (Rejected (JsValue failure_body)) /\
  fst (Legacy.findItemsByUpc (VStr "0885909950805") VUndef (serving wire))
    = Return (Rejected (JsValue failure_body)).
Proof. split; reflexivity. Qed.

(** * Further properties of the code *)

(** ** The coercion helper *)

(** X1.  [forceArray] always gives a sequence: the empty one for
    [undefined], a sequence as it is, and for anything else, [null]
    included, the one-element sequence of that very value.  Applying it
    again changes nothing, and the sequence is empty only for [undefined]
    and for the empty sequence itself. *)
Theorem forceArray_coerces (v : value) :
  match v with
  | VUndef => forceArray v = VArr []
  | VArr es => forceArray v = VArr es
  | _ => forceArray v = VArr [v]
  end /\
  forceArray v = VArr (forced v) /\
  forceArray (forceArray v) = forceArray v /\
  (forced v = [] <-> v = VUndef \/ v = VArr []).
Proof.
  split; [destruct v; reflexivity|].
  split; [apply forceArray_forced|]. split.
  - destruct v; reflexivity.
  - unfold forced. destruct v as [| | | | |es|]; simpl; split;
      try discriminate; try tauto;
      try (intros [H|H]; discriminate).
    + intros ->. now right.
    + intros [H|H]; [discriminate | now injection H].
Qed.

Lemma forceArray_coerces_witness :
  forceArray VNull = VArr [VNull] /\
  forceArray VNull = VArr (forced VNull) /\
  forceArray (forceArray VNull) = forceArray VNull /\
  (forced VNull = [] <-> VNull = VUndef \/ VNull = VArr []).
Proof. apply (forceArray_coerces VNull). Defined.

(** ** Repeated normalisation *)

Lemma size_flatten_at_lt (c : value) :
  is_singleton c = true -> size (flatten_at c) < size c.
Proof.
  destruct c as [| | | | |[|y [|z es]]|]; try discriminate. intros _.
  rewrite flatten_at_cases. pose proof (proj1 (size_flatten y)). simpl. lia.
Qed.

Lemma flatten_elements_shrink (es : list value) :
  list_sum (map size (map flatten_at es)) < list_sum (map size es) \/
  map flatten_at es = es.
Proof.
  induction es as [|c es IH]; [now right|]. simpl.
  assert (Hle : list_sum (map size (map flatten_at es)) <= list_sum (map size es)).
  { rewrite map_map. apply list_sum_map_le, Forall_forall.
    intros x _. apply size_flatten. }
  destruct (is_singleton c) eqn:E.
  - left. pose proof (size_flatten_at_lt c E). lia.
  - apply flatten_at_fixed_iff in E. rewrite E.
    destruct IH as [IH|IH]; [left; lia | right; now rewrite IH].
Qed.

Lemma flatten_props_shrink (ps : object) :
  list_sum (map (fun kv => size (snd kv))
              (map (fun kv => (fst kv, flatten_at (snd kv))) ps))
    < list_sum (map (fun kv : string * value => size (snd kv)) ps) \/
  map (fun kv => (fst kv, flatten_at (snd kv))) ps = ps.
Proof.
  induction ps as [|[k c] ps IH]; [now right|]. simpl.
  assert (Hle : list_sum (map (fun kv => size (snd kv))
                            (map (fun kv => (fst kv, flatten_at (snd kv))) ps))
                <= list_sum (map (fun kv : string * value => size (snd kv)) ps)).
  { rewrite map_map. apply list_sum_map_le, Forall_forall.
    intros x _. apply size_flatten. }
  destruct (is_singleton c) eqn:E.
  - left. pose proof (size_flatten_at_lt c E). lia.
  - apply flatten_at_fixed_iff in E. rewrite E.
    destruct IH as [IH|IH]; [left; lia | right; now rewrite IH].
Qed.

(** A pass that changes the value makes it smaller. *)
Lemma flatten_shrinks_or_fixes (v : value) :
  size (flatten v) < size v \/ flatten v = v.
Proof.
  destruct v as [| | | | |es|ps]; try now right.
  - rewrite flatten_arr. simpl.
    destruct (flatten_elements_shrink es) as [H|H]; [left; lia | right; now rewrite H].
  - rewrite flatten_obj. simpl.
    destruct (flatten_props_shrink ps) as [H|H]; [left; lia | right; now rewrite H].
Qed.

Lemma size_positive (v : value) : 1 <= size v.
Proof. destruct v; simpl; lia. Qed.

Lemma iter_flatten_fixed (n : nat) (v : value) :
  flatten v = v -> Nat.iter n flatten v = v.
Proof. intro H. induction n as [|n IH]; simpl; [reflexivity | now rewrite IH]. Qed.

Lemma flatten_settles_within (n : nat) (v : value) :
  size v <= n ->
  flatten (Nat.iter n flatten v) = Nat.iter n flatten v.
Proof.
  revert v. induction n as [|n IH]; intros v Hn.
  - pose proof (size_positive v). lia.
  - destruct (flatten_shrinks_or_fixes v) as [Hlt|Hfix].
    + rewrite Nat.iter_succ_r. apply IH. lia.
    + rewrite iter_flatten_fixed by exact Hfix. exact Hfix.
Qed.

(** X2.  Normalising over and over comes to rest: after as many passes as
    the value has nodes, one more pass changes nothing. *)
Theorem flatten_settles (v : value) :
  flatten (Nat.iter (size v) flatten v) = Nat.iter (size v) flatten v.
Proof. apply flatten_settles_within. lia. Qed.

(** ** Bodies in the shape the service sends *)

Lemma wire_shaped_obj (ps : object) :
  wire_shaped (VObj ps) = forallb (fun kv => wire_field (snd kv)) ps.
Proof.
  simpl. induction ps as [|[k c] ps IH]; simpl; [reflexivity|].
  now rewrite IH.
Qed.

Lemma flatten_wire (v : value) :
  (wire_shaped v = true -> flatten v = normalize_spec v) /\
  (wire_field v = true -> flatten_at v = normalize_spec v).
Proof.
  induction v as [| | | | |es IH|ps IH] using value_deep_ind;
    try (split; reflexivity).
  - split; [discriminate|].
    destruct es as [|y [|z es]]; try reflexivity.
    inversion IH as [|? ? [Hy _] _]; subst.
    rewrite flatten_at_cases. simpl.
    destruct y; try discriminate; intro H; now apply Hy.
  - split; [|discriminate].
    rewrite wire_shaped_obj, flatten_obj. intro H.
    rewrite forallb_forall in H. rewrite Forall_forall in IH.
    simpl. f_equal. apply map_ext_in. intros [k c] Hin. simpl. f_equal.
    apply (IH _ Hin). exact (H _ Hin).
Qed.

(** X3.  On a body in the shape the service sends, one pass does all there
    is to do: it gives what collapsing every sequence of length one reached
    through objects gives. *)
Theorem flatten_complete_on_wire (v : value) :
  wire_shaped v = true -> flatten v = normalize_spec v.
Proof. apply flatten_wire. Qed.

Lemma flatten_complete_on_wire_witness :
  flatten one_item_wire = normalize_spec one_item_wire.
Proof. apply (flatten_complete_on_wire one_item_wire). reflexivity. Defined.

(** ** What the parser can end in *)

(** X4.  The parser ends in one of four ways and no other: the TypeError of
    destructuring a missing response; the response thrown back, exactly when
    [ack] is ["Failure"]; the TypeError of reading ['@count'], exactly when
    it is not a failure and [searchResult] is missing; or a record.  No
    [Error] object is ever thrown, and [map] is never called on anything but
    the coerced sequence. *)
Theorem parser_outcomes (response : value) :
  match findByProductParser response with
  | Return _ =>
      is_string "Failure" (prop "ack" response) = false /\
      nullish (prop "searchResult" response) = false
  | Throw (JsValue _) => is_string "Failure" (prop "ack" response) = true
  | Throw (JsTypeError t) =>
      t = "ack" /\ nullish response = true \/
      t = "@count" /\ nullish response = false /\
        is_string "Failure" (prop "ack" response) = false /\
        nullish (prop "searchResult" response) = true
  | Throw (JsError _) => False
  end.
Proof.
  destruct (nullish response) eqn:Hresp.
  - unfold findByProductParser. rewrite Hresp. now left.
  - destruct (is_string "Failure" (prop "ack" response)) eqn:Hack.
    + unfold findByProductParser. rewrite Hresp, Hack. reflexivity.
    + destruct (nullish (prop "searchResult" response)) eqn:Hsr.
      * rewrite parser_needs_searchResult by assumption. right. tauto.
      * rewrite parser_returns by assumption. tauto.
Qed.

Lemma parser_throws_no_Error (response : value) (message : string) :
  findByProductParser response <> Throw (JsError message).
Proof.
  destruct (nullish response) eqn:Hresp.
  - unfold findByProductParser. rewrite Hresp. discriminate.
  - destruct (is_string "Failure" (prop "ack" response)) eqn:Hack.
    + unfold findByProductParser. rewrite Hresp, Hack. discriminate.
    + destruct (nullish (prop "searchResult" response)) eqn:Hsr.
      * rewrite parser_needs_searchResult by assumption. discriminate.
      * rewrite parser_returns by assumption. discriminate.
Qed.

(** ** The items and the count *)

Lemma count_defaults_to_zero_witness :
  exists result,
    findByProductParser
      (VObj [("ack", VStr "Success"); ("searchResult", VObj [("@count", VStr "many")])])
      = Return result /\
    prop "searchResultCount" result = VNum 0.
Proof.
  apply (@count_defaults_to_zero
           (VObj [("ack", VStr "Success");
                  ("searchResult", VObj [("@count", VStr "many")])]));
    reflexivity.
Defined.

(** Printing a number and reading it back with [parseInt]. *)

Ltac read_digit :=
  match goal with
  | |- context [digit_of ?c] =>
      let v := eval vm_compute in (digit_of c) in
      change (digit_of c) with v; cbv beta iota
  end.

Lemma digits_after (d : Decimal.uint) (p : positive) :
  leading_digits (NilEmpty.string_of_uint d) (Some (Z.pos p)) =
  Some (Z.pos (Pos.of_uint_acc d p)).
Proof.
  revert p.
  induction d; intro p;
    cbn [NilEmpty.string_of_uint leading_digits Pos.of_uint_acc];
    try reflexivity; read_digit; rewrite <- IHd; do 2 f_equal; lia.
Qed.

Lemma digits_after_zero (d : Decimal.uint) :
  leading_digits (NilEmpty.string_of_uint d) (Some 0%Z) =
  Some (Z.of_N (Pos.of_uint d)).
Proof.
  induction d; cbn [NilEmpty.string_of_uint leading_digits Pos.of_uint];
    try reflexivity; read_digit;
    [exact IHd | apply digits_after ..].
Qed.

Lemma digits_of_uint (d : Decimal.uint) :
  d <> Decimal.Nil ->
  leading_digits (NilEmpty.string_of_uint d) None = Some (Z.of_N (Pos.of_uint d)).
Proof.
  destruct d; intro H; try congruence;
    cbn [NilEmpty.string_of_uint leading_digits Pos.of_uint]; read_digit;
    [apply digits_after_zero | apply digits_after ..].
Qed.

Lemma skip_space_uint (d : Decimal.uint) :
  skip_space (NilEmpty.string_of_uint d) = NilEmpty.string_of_uint d.
Proof. destruct d; reflexivity. Qed.

Lemma parseInt10_uint (d : Decimal.uint) :
  d <> Decimal.Nil ->
  parseInt10 (NilEmpty.string_of_uint d) = Some (Z.of_N (Pos.of_uint d)).
Proof.
  intro H. unfold parseInt10. rewrite skip_space_uint.
  rewrite <- (digits_of_uint H). destruct d; try congruence; reflexivity.
Qed.

Lemma string_of_uint_pos (p : positive) :
  NilZero.string_of_uint (Pos.to_uint p) = NilEmpty.string_of_uint (Pos.to_uint p).
Proof.
  pose proof (DecimalPos.Unsigned.to_uint_nonnil p).
  destruct (Pos.to_uint p); try congruence; reflexivity.
Qed.

Lemma parseInt10_to_string (z : Z) :
  parseInt10 (to_string (VNum z)) = Some z.
Proof.
  destruct z as [|p|p]; simpl; [reflexivity| |].
  - rewrite string_of_uint_pos, parseInt10_uint
      by apply DecimalPos.Unsigned.to_uint_nonnil.
    now rewrite DecimalPos.Unsigned.of_to.
  - rewrite string_of_uint_pos. unfold parseInt10. simpl.
    rewrite digits_of_uint by apply DecimalPos.Unsigned.to_uint_nonnil.
    now rewrite DecimalPos.Unsigned.of_to.
Qed.

(** X5.  For a body that is not a failure and whose [searchResult.item] is a
    sequence, the record lists the items one for one and in order, each
    normalised on its own; the count is the number ['@count'] spells out,
    however many items there are. *)
Theorem parser_lists_items (response : value) (sr : object) (items : list value)
    (z : Z) :
  (Z.abs z <= max_safe_integer)%Z ->
  is_string "Failure" (prop "ack" response) = false ->
  prop "searchResult" response = VObj sr ->
  get "item" sr = Some (VArr items) ->
  get "@count" sr = Some (VStr (to_string (VNum z))) ->
  exists result,
    findByProductParser response = Return result /\
    prop "searchResult" result = VArr (map flatten items) /\
    prop "searchResultCount" result = VNum z.
Proof.
  intros _ Hack Hsr Hitem Hcount.
  rewrite parser_returns by (rewrite ?Hsr; easy).
  eexists. split; [reflexivity|].
  rewrite Hsr.
  assert (E : parseInt10 (to_string (prop "@count" (VObj sr))) = Some z).
  { simpl prop. rewrite Hcount. apply parseInt10_to_string. }
  rewrite E. unfold has_item, forced. simpl. rewrite Hitem. simpl.
  split; [reflexivity|].
  destruct (Z.eqb_spec z 0) as [->|_]; reflexivity.
Qed.

Lemma parser_lists_items_witness :
  exists result,
    findByProductParser two_item_body = Return result /\
    prop "searchResult" result =
      VArr (map flatten [VObj [("itemId", VArr [VStr "1"])];
                         VObj [("itemId", VArr [VStr "2"])]]) /\
    prop "searchResultCount" result = VNum 250.
Proof.
  apply (@parser_lists_items two_item_body two_item_searchResult _ 250%Z);
    try reflexivity.
  unfold max_safe_integer. lia.
Defined.

(** X6.  When ['@count'] holds a whole number that a double holds exactly,
    or the decimal text of one, that number is the count of the record. *)
Theorem count_is_read_back (response : value) (sr : object) (z : Z) :
  (Z.abs z <= max_safe_integer)%Z ->
  is_string "Failure" (prop "ack" response) = false ->
  prop "searchResult" response = VObj sr ->
  get "@count" sr = Some (VNum z) \/ get "@count" sr = Some (VStr (to_string (VNum z))) ->
  exists result,
    findByProductParser response = Return result /\
    prop "searchResultCount" result = VNum z.
Proof.
  intros _ Hack Hsr Hcount.
  rewrite parser_returns by (rewrite ?Hsr; easy).
  eexists. split; [reflexivity|].
  rewrite Hsr.
  assert (E : parseInt10 (to_string (prop "@count" (VObj sr))) = Some z).
  { simpl prop. destruct Hcount as [-> | ->]; apply parseInt10_to_string. }
  rewrite E. simpl.
  destruct (Z.eqb_spec z 0) as [->|_]; reflexivity.
Qed.

Lemma count_is_read_back_witness :
  exists result,
    findByProductParser
      (VObj [("ack", VStr "Success"); ("searchResult", VObj [("@count", VStr "1024")])])
      = Return result /\
    prop "searchResultCount" result = VNum 1024.
Proof.
  apply (@count_is_read_back
           (VObj [("ack", VStr "Success");
                  ("searchResult", VObj [("@count", VStr "1024")])])
           [("@count", VStr "1024")] 1024%Z); try reflexivity.
  - unfold max_safe_integer. lia.
  - right. reflexivity.
Defined.

(** ** The paths through the dispatcher *)

Lemma one_call_at_most_refl (w : world) : one_call_at_most w w.
Proof.
  exists [], []. rewrite !app_nil_r. repeat split; simpl; lia.
Qed.

Lemma findCall_one_call (operation : string) (parser : value -> outcome value)
    (baseParams : object) (other : value) (w : world) :
  one_call_at_most w (snd (findCall operation parser baseParams other w)).
Proof.
  destruct (validOperation operation) eqn:Hop.
  - destruct (ebay w) as [c|] eqn:Hc.
    + rewrite (@findCall_initialised operation parser baseParams other w c Hc Hop).
      set (params := request_params operation baseParams other).
      destruct (respond c "finding" params) as [err data].
      assert (Hsent : one_call_at_most w
                (World (ebay w) (trace w ++ [RemoteCall "finding" params]))).
      { exists [("finding", params)], [].
        rewrite remote_calls_app, parser_calls_app. simpl.
        repeat split; lia. }
      destruct (truthy err); [exact Hsent|].
      destruct (read _ _) as [response|e]; [|exact Hsent].
      destruct (negb (truthy response)); [exact Hsent|].
      exists [("finding", params)], [response]. cbn [snd].
      rewrite remote_calls_app, parser_calls_app. simpl.
      repeat split; lia.
    + rewrite findCall_uninitialised by assumption. apply one_call_at_most_refl.
  - unfold findCall. rewrite Hop. apply one_call_at_most_refl.
Qed.


(** X8.  An operation outside the supported list makes the dispatcher throw
    at once, with a message that names the operation and lists the supported
    ones; the handle is not looked at and nothing is sent. *)
Theorem unsupported_operation_throws (operation : string)
    (parser : value -> outcome value) (baseParams : object) (other : value)
    (w : world) :
  ~ In operation findOperations ->
  findCall operation parser baseParams other w =
  (Throw (JsError ("invalid operation " ++ operation ++
                   " use one of [findCompletedItems findItemsAdvanced findItemsByCategory findItemsByKeywords findItemsByProduct findItemsIneBayStores getHistograms getSearchKeywordsRecommendation getVersion]")),
   w).
Proof.
  intro Hnot. unfold findCall.
  destruct (validOperation operation) eqn:E; [|reflexivity].
  apply existsb_exists in E as [op [Hin Heq]].
  apply String.eqb_eq in Heq. now subst.
Qed.

Lemma unsupported_operation_throws_witness :
  findCall "findItemsByUpc" findByProductParser [] VUndef fresh =
  (Throw (JsError ("invalid operation " ++ "findItemsByUpc" ++
                   " use one of [findCompletedItems findItemsAdvanced findItemsByCategory findItemsByKeywords findItemsByProduct findItemsIneBayStores getHistograms getSearchKeywordsRecommendation getVersion]")),
   fresh).
Proof.
  apply (@unsupported_operation_throws "findItemsByUpc" findByProductParser
           [] VUndef fresh).
  not_listed.
Defined.

(** X9.  When the client reports an error, the promise is rejected with
    that very value, whatever body came with it, and the parser is not
    called. *)
Theorem transport_error_passes_through (operation : string)
    (parser : value -> outcome value) (baseParams : object) (other : value)
    (w : world) (c : client) (err data : value) :
  ebay w = Some c ->
  validOperation operation = true ->
  respond c "finding" (request_params operation baseParams other) = (err, data) ->
  truthy err = true ->
  fst (findCall operation parser baseParams other w) = Return (Rejected (JsValue err)) /\
  parser_calls (snd (findCall operation parser baseParams other w)) = parser_calls w.
Proof.
  intros Hc Hop Hr Herr.
  rewrite (@findCall_initialised operation parser baseParams other w c Hc Hop).
  rewrite Hr, Herr. simpl. rewrite parser_calls_app.
  split; [reflexivity | apply app_nil_r].
Qed.

Lemma transport_error_passes_through_witness :
  fst (findCall "findItemsByProduct" findByProductParser [] VUndef
         (World (Some (answering (VStr "ECONNRESET") one_item_wire)) []))
    = Return (Rejected (JsValue (VStr "ECONNRESET"))) /\
  parser_calls
    (snd (findCall "findItemsByProduct" findByProductParser [] VUndef
            (World (Some (answering (VStr "ECONNRESET") one_item_wire)) [])))
    = parser_calls (World (Some (answering (VStr "ECONNRESET") one_item_wire)) []).
Proof.
  apply (@transport_error_passes_through "findItemsByProduct" findByProductParser
           [] VUndef (World (Some (answering (VStr "ECONNRESET") one_item_wire)) [])
           (answering (VStr "ECONNRESET") one_item_wire)
           (VStr "ECONNRESET") one_item_wire); reflexivity.
Defined.

(** X10.  When the client reports no error and the envelope field of the
    normalised body is truthy, the parser is called once, on that field, and
    the promise is settled with what the parser does: resolved with its
    record, or rejected with what it throws. *)
Theorem envelope_goes_to_parser (operation : string)
    (parser : value -> outcome value) (baseParams : object) (other : value)
    (w : world) (c : client) (err data : value) :
  ebay w = Some c ->
  validOperation operation = true ->
  respond c "finding" (request_params operation baseParams other) = (err, data) ->
  truthy err = false ->
  truthy (prop (operation ++ "Response") (flatten data)) = true ->
  fst (findCall operation parser baseParams other w) =
    Return (settle (parser (prop (operation ++ "Response") (flatten data)))) /\
  parser_calls (snd (findCall operation parser baseParams other w)) =
    parser_calls w ++ [prop (operation ++ "Response") (flatten data)].
Proof.
  intros Hc Hop Hr Herr Htruthy.
  assert (Hdata : nullish (flatten data) = false).
  { destruct (flatten data); easy. }
  rewrite (@findCall_initialised operation parser baseParams other w c Hc Hop).
  rewrite Hr, Herr. unfold read. rewrite Hdata, Htruthy. simpl.
  rewrite parser_calls_app. split; reflexivity.
Qed.

Lemma envelope_goes_to_parser_witness :
  fst (findCall "findItemsByProduct" findByProductParser [] VUndef (serving one_item_wire))
    = Return (settle (findByProductParser
                        (prop ("findItemsByProduct" ++ "Response") (flatten one_item_wire)))) /\
  parser_calls
    (snd (findCall "findItemsByProduct" findByProductParser [] VUndef (serving one_item_wire)))
    = parser_calls (serving one_item_wire) ++
        [prop ("findItemsByProduct" ++ "Response") (flatten one_item_wire)].
Proof.
  apply (@envelope_goes_to_parser "findItemsByProduct" findByProductParser
           [] VUndef (serving one_item_wire) (answering VNull one_item_wire)
           VNull one_item_wire); reflexivity.
Defined.

(** X11.  When the client reports no error but hands over [undefined] or
    [null] for the body, the callback throws while taking the envelope out
    of it: the promise is neither resolved nor rejected, and the parser is
    not called. *)
Theorem missing_body_settles_nothing (operation : string)
    (parser : value -> outcome value) (baseParams : object) (other : value)
    (w : world) (c : client) (err data : value) :
  ebay w = Some c ->
  validOperation operation = true ->
  respond c "finding" (request_params operation baseParams other) = (err, data) ->
  truthy err = false ->
  nullish data = true ->
  fst (findCall operation parser baseParams other w) =
    Return (Pending (JsTypeError (operation ++ "Response"))) /\
  parser_calls (snd (findCall operation parser baseParams other w)) = parser_calls w.
Proof.
  intros Hc Hop Hr Herr Hdata.
  rewrite (@findCall_initialised operation parser baseParams other w c Hc Hop).
  rewrite Hr, Herr. unfold read. rewrite nullish_flatten, Hdata. simpl.
  rewrite parser_calls_app. split; [reflexivity | apply app_nil_r].
Qed.

Lemma missing_body_settles_nothing_witness :
  fst (findCall "findItemsByProduct" findByProductParser [] VUndef (serving VUndef))
    = Return (Pending (JsTypeError ("findItemsByProduct" ++ "Response"))) /\
  parser_calls
    (snd (findCall "findItemsByProduct" findByProductParser [] VUndef (serving VUndef)))
    = parser_calls (serving VUndef).
Proof.
  apply (@missing_body_settles_nothing "findItemsByProduct" findByProductParser
           [] VUndef (serving VUndef) (answering VNull VUndef) VNull VUndef);
    reflexivity.
Defined.

(** ** What the public searches send *)

Lemma findCall_remote_call (operation : string) (parser : value -> outcome value)
    (baseParams : object) (other : value) (w : world) (c : client) :
  ebay w = Some c ->
  validOperation operation = true ->
  remote_calls (snd (findCall operation parser baseParams other w)) =
  remote_calls w ++ [("finding", request_params operation baseParams other)].
Proof.
  intros Hc Hop.
  rewrite (@findCall_initialised operation parser baseParams other w c Hc Hop).
  destruct (respond c "finding" _) as [err data].
  destruct (truthy err); [simpl; now rewrite remote_calls_app|].
  destruct (read _ _) as [response|e]; [|simpl; now rewrite remote_calls_app].
  destruct (negb (truthy response)); simpl; now rewrite remote_calls_app.
Qed.

Lemma findCall_returns (operation : string) (parser : value -> outcome value)
    (baseParams : object) (other : value) (w : world) :
  validOperation operation = true ->
  exists p w', findCall operation parser baseParams other w = (Return p, w').
Proof.
  intro Hop. destruct (ebay w) as [c|] eqn:Hc.
  - rewrite (@findCall_initialised operation parser baseParams other w c Hc Hop).
    destruct (respond c "finding" _) as [err data].
    destruct (truthy err); [eauto|].
    destruct (read _ _) as [response|e]; [|eauto].
    destruct (negb (truthy response)); eauto.
  - rewrite findCall_uninitialised by assumption. eauto.
Qed.

(** The default [other = {}] adds nothing to what is sent. *)
Lemma findCall_or_empty (operation : string) (parser : value -> outcome value)
    (baseParams : object) (other : value) :
  findCall operation parser baseParams (or_empty other) =
  findCall operation parser baseParams other.
Proof. destruct other; reflexivity. Qed.

(** X12.  With a handle in place, [findItemsByKeywords] issues one call whose
    operation is [findItemsAdvanced], with [descriptionSearch] on and the
    keywords as given; the caller's options [ps], passed as an object or not
    at all, fill every other key and can override none of these three. *)
Theorem keyword_search_request (keywords other : value) (ps : object)
    (w : world) (c : client) :
  ebay w = Some c ->
  NoDup (map fst ps) ->
  other = VObj ps \/ other = VUndef /\ ps = [] ->
  exists params,
    remote_calls (snd (findItemsByKeywords keywords other w)) =
      remote_calls w ++ [("finding", params)] /\
    get "OPERATION-NAME" params = Some (VStr "findItemsAdvanced") /\
    get "descriptionSearch" params = Some (VBool true) /\
    get "keywords" params = Some keywords /\
    forall k,
      k <> "OPERATION-NAME" -> k <> "descriptionSearch" -> k <> "keywords" ->
      get k params = get k ps.
Proof.
  intros Hc Ho Hother. apply own_props_options in Hother.
  rewrite <- Hother in Ho |- *. eexists. split.
  - unfold findItemsByKeywords, callFindItemsAdvanced.
    now apply (@findCall_remote_call _ _ _ _ w c).
  - assert (Hb : NoDup (map fst [("descriptionSearch", VBool true); ("keywords", keywords)]))
      by distinct_keys.
    repeat split; try (rewrite get_request_params by assumption; reflexivity).
    intros k H1 H2 H3. rewrite get_request_params by assumption. simpl.
    destruct (String.eqb_spec k "descriptionSearch"); [contradiction|].
    destruct (String.eqb_spec k "keywords"); [contradiction|].
    destruct (String.eqb_spec k "OPERATION-NAME"); [contradiction|].
    reflexivity.
Qed.

Lemma keyword_search_request_witness :
  exists params,
    remote_calls (snd (findItemsByKeywords (VStr "harry potter")
                         (VObj [("keywords", VStr "x"); ("sortOrder", VStr "EndTimeSoonest")])
                         (serving empty_envelope))) =
      remote_calls (serving empty_envelope) ++ [("finding", params)] /\
    get "OPERATION-NAME" params = Some (VStr "findItemsAdvanced") /\
    get "descriptionSearch" params = Some (VBool true) /\
    get "keywords" params = Some (VStr "harry potter") /\
    forall k,
      k <> "OPERATION-NAME" -> k <> "descriptionSearch" -> k <> "keywords" ->
      get k params =
      get k [("keywords", VStr "x"); ("sortOrder", VStr "EndTimeSoonest")].
Proof.
  apply (@keyword_search_request (VStr "harry potter")
           (VObj [("keywords", VStr "x"); ("sortOrder", VStr "EndTimeSoonest")])
           _ (serving empty_envelope) (answering VNull empty_envelope)).
  - reflexivity.
  - distinct_keys.
  - left. reflexivity.
Defined.

(** X13.  With a handle in place, a type-specific search issues one
    [findItemsByProduct] call carrying its type and the identifier exactly as
    given; the identifier is not checked, so a missing one is sent as
    [undefined].  The caller's options [ps], passed as an object or not at
    all, fill every other key only. *)
Theorem product_search_request (type : string) (id other : value) (ps : object)
    (w : world) (c : client) :
  In type productIdTypes ->
  ebay w = Some c ->
  NoDup (map fst ps) ->
  other = VObj ps \/ other = VUndef /\ ps = [] ->
  exists params,
    remote_calls (snd (by_type type id other w)) =
      remote_calls w ++ [("finding", params)] /\
    get "OPERATION-NAME" params = Some (VStr "findItemsByProduct") /\
    get "productId.@type" params = Some (VStr type) /\
    get "productId" params = Some id /\
    forall k,
      k <> "OPERATION-NAME" -> k <> "productId.@type" -> k <> "productId" ->
      get k params = get k ps.
Proof.
  intros Hin Hc Ho Hother. apply own_props_options in Hother.
  rewrite <- Hother in Ho |- *. eexists. split.
  - rewrite by_type_run. unfold callFindByProduct.
    rewrite supported_type by exact Hin. simpl.
    now apply (@findCall_remote_call _ _ _ _ w c).
  - assert (Hb : NoDup (map fst [("productId.@type", VStr type); ("productId", id)]))
      by distinct_keys.
    repeat split; try (rewrite get_request_params by assumption; reflexivity).
    intros k H1 H2 H3. rewrite get_request_params by assumption. simpl.
    destruct (String.eqb_spec k "productId.@type"); [contradiction|].
    destruct (String.eqb_spec k "productId"); [contradiction|].
    destruct (String.eqb_spec k "OPERATION-NAME"); [contradiction|].
    reflexivity.
Qed.

Lemma product_search_request_witness :
  exists params,
    remote_calls (snd (findItemsByIsbn VUndef
                         (VObj [("productId", VStr "zz"); ("sortOrder", VStr "BestMatch")])
                         (serving empty_envelope))) =
      remote_calls (serving empty_envelope) ++ [("finding", params)] /\
    get "OPERATION-NAME" params = Some (VStr "findItemsByProduct") /\
    get "productId.@type" params = Some (VStr "ISBN") /\
    get "productId" params = Some VUndef /\
    forall k,
      k <> "OPERATION-NAME" -> k <> "productId.@type" -> k <> "productId" ->
      get k params = get k [("productId", VStr "zz"); ("sortOrder", VStr "BestMatch")].
Proof.
  apply (@product_search_request "ISBN" VUndef
           (VObj [("productId", VStr "zz"); ("sortOrder", VStr "BestMatch")])
           _ (serving empty_envelope) (answering VNull empty_envelope)).
  - simpl. tauto.
  - reflexivity.
  - distinct_keys.
  - left. reflexivity.
Defined.

(** X14.  The four type-specific searches and the keyword search never
    throw: whatever they are given, and with or without a handle, they hand
    back a promise, so every failure of theirs is a rejection. *)
Theorem wrappers_never_throw (id other : value) (w : world) :
  (exists p w', findItemsByUpc id other w = (Return p, w')) /\
  (exists p w', findItemsByReferenceId id other w = (Return p, w')) /\
  (exists p w', findItemsByIsbn id other w = (Return p, w')) /\
  (exists p w', findItemsByEan id other w = (Return p, w')) /\
  (exists p w', findItemsByKeywords id other w = (Return p, w')).
Proof.
  repeat split;
    try (unfold findItemsByUpc, findItemsByReferenceId, findItemsByIsbn,
           findItemsByEan; rewrite by_type_run);
    now apply findCall_returns.
Qed.

(** X15.  Given an identifier that is not falsy, [findItemsByProduct] with
    all its arguments does what the curried chain the wrappers use does: the
    same call, the same promise, the same throw. *)
Theorem full_application_is_the_chain (type : string) (id other : value) (w : world) :
  truthy id = true ->
  findItemsByProduct (VStr type) id other w =
  match by_type type id other w with
  | (Return p, w') => (Return (Started p), w')
  | (Throw e, w') => (Throw e, w')
  end.
Proof.
  intro Hid. rewrite findItemsByProduct_run by exact Hid. rewrite by_type_run.
  unfold callFindByProduct.
  destruct (validProductIdType (VStr type)); simpl; [|reflexivity].
  now rewrite findCall_or_empty.
Qed.

Lemma full_application_is_the_chain_witness :
  findItemsByProduct (VStr "EAN") (VStr "5051892002172") VUndef (serving one_item_wire) =
  match by_type "EAN" (VStr "5051892002172") VUndef (serving one_item_wire) with
  | (Return p, w') => (Return (Started p), w')
  | (Throw e, w') => (Throw e, w')
  end.
Proof.
  apply (@full_application_is_the_chain "EAN" (VStr "5051892002172") VUndef
           (serving one_item_wire)).
  reflexivity.
Defined.

Lemma search_without_handle_witness :
  (forall type, In type productIdTypes ->
     by_type type (VStr "0885909950805") VUndef fresh
     = (Return (Rejected (JsTypeError "get")), fresh)) /\
  findItemsByKeywords (VStr "0885909950805") VUndef fresh
    = (Return (Rejected (JsTypeError "get")), fresh) /\
  (forall type, In type productIdTypes -> truthy (VStr "0885909950805") = true ->
     findItemsByProduct (VStr type) (VStr "0885909950805") VUndef fresh =
     (Return (Started (Rejected (JsTypeError "get"))), fresh)).
Proof.
  apply (@search_without_handle fresh (VStr "0885909950805") VUndef). reflexivity.
Defined.

(** ** Start-up *)

(** X22.  [init] followed by a search.  With no configuration object the
    destructuring in [init] throws and nothing else happens.  With one, the
    handle is the client built from its [appId], and the search that follows
    issues its one call through it. *)
Theorem init_then_search (Ebay : value -> client) (config upc other : value)
    (w : world) :
  if nullish config
  then (init Ebay config ;; findItemsByUpc upc other) w
       = (Throw (JsTypeError "appId"), w)
  else exists p w',
         (init Ebay config ;; findItemsByUpc upc other) w = (Return p, w') /\
         ebay w' = Some (Ebay (VObj [("app_id", prop "appId" config)])) /\
         remote_calls w' =
           remote_calls w ++
           [("finding",
             request_params "findItemsByProduct"
               [("productId.@type", VStr "UPC"); ("productId", upc)] other)].
Proof.
  destruct (nullish config) eqn:Hcfg.
  - unfold bind, init, lift, read. now rewrite Hcfg.
  - unfold bind at 1. rewrite init_installs_handle by exact Hcfg.
    set (c := Ebay (VObj [("app_id", prop "appId" config)])).
    set (w1 := World (Some c) (trace w)).
    unfold findItemsByUpc. rewrite by_type_run. unfold callFindByProduct.
    change (validProductIdType (VStr "UPC")) with true. cbn [negb].
    set (base := [("productId.@type", VStr "UPC"); ("productId", upc)]).
    pose proof (@findCall_remote_call "findItemsByProduct" findByProductParser
                  base other w1 c eq_refl eq_refl) as Hcalls.
    destruct (findCall_one_call "findItemsByProduct" findByProductParser
                base other w1) as (calls & parsed & (Hebay & _) & _).
    destruct (@findCall_returns "findItemsByProduct" findByProductParser
                base other w1 eq_refl) as (p & w' & E).
    rewrite E in *. exists p, w'. split; [reflexivity|]. split.
    + exact Hebay.
    + exact Hcalls.
Qed.

(** ** The two revisions side by side *)

Lemma legacy_search_without_handle_witness :
  Legacy.findItemsByProduct (VStr "SKU") (VStr "0885909950805") VUndef fresh
  = (Throw NotInitialized, fresh).
Proof.
  apply (@legacy_search_without_handle fresh (VStr "SKU") (VStr "0885909950805") VUndef).
  reflexivity.
Defined.

Lemma legacy_unsupported_type_witness :
  Legacy.findItemsByProduct (VStr "SKU") (VStr "0885909950805") VUndef
    (serving empty_envelope) =
  (Throw (JsError ("unknown type " ++ "SKU" ++ ", use ReferenceID, ISBN, UPC, or EAN")),
   serving empty_envelope).
Proof.
  apply (@legacy_unsupported_type "SKU" (VStr "0885909950805") VUndef
           (serving empty_envelope) (answering VNull empty_envelope)).
  - reflexivity.
  - not_listed.
Defined.

(** X21.  With a handle in place and a supported type, the earlier
    [findItemsByProduct] issues one [finding] call in which
    [OPERATION-NAME], [productId.@type] and [productId] hold the operation
    name, the type and the identifier as given, and every other key holds
    what the caller's options [ps], passed as an object or not at all, give
    it. *)
Theorem legacy_search_request (type id other : value) (ps : object)
    (w : world) (c : client) :
  ebay w = Some c ->
  validProductIdType type = true ->
  NoDup (map fst ps) ->
  other = VObj ps \/ other = VUndef /\ ps = [] ->
  exists params,
    remote_calls (snd (Legacy.findItemsByProduct type id other w)) =
      remote_calls w ++ [("finding", params)] /\
    get "OPERATION-NAME" params = Some (VStr "findItemsByProduct") /\
    get "productId.@type" params = Some type /\
    get "productId" params = Some id /\
    forall k,
      k <> "OPERATION-NAME" -> k <> "productId.@type" -> k <> "productId" ->
      get k params = get k ps.
Proof.
  intros Hc Hvalid Ho Hother.
  assert (Hprops : own_props (or_empty other) = ps).
  { destruct Hother as [-> | [-> ->]]; reflexivity. }
  exists (set_prop "productId" id
            (set_prop "productId.@type" type
               (set_prop "OPERATION-NAME" (VStr "findItemsByProduct")
                  (spread (own_props (or_empty other)) [])))).
  split.
  - unfold Legacy.findItemsByProduct, bind, handle, emit, ret.
    rewrite Hc, Hvalid. cbn [negb].
    destruct (respond c "finding" _) as [err data].
    destruct (truthy err); [cbn [snd]; now rewrite remote_calls_app|].
    destruct (read _ _) as [response|e]; [|cbn [snd]; now rewrite remote_calls_app].
    destruct (negb (truthy response)); cbn [snd]; now rewrite remote_calls_app.
  - rewrite <- Hprops in Ho.
    repeat split; try (rewrite legacy_params by exact Ho; reflexivity).
    intros k H1 H2 H3. rewrite legacy_params by exact Ho. rewrite Hprops.
    destruct (String.eqb_spec k "productId"); [contradiction|].
    destruct (String.eqb_spec k "productId.@type"); [contradiction|].
    destruct (String.eqb_spec k "OPERATION-NAME"); [contradiction|].
    reflexivity.
Qed.

Lemma legacy_search_request_witness :
  exists params,
    remote_calls
      (snd (Legacy.findItemsByProduct (VStr "UPC") (VStr "0885909950805")
              (VObj [("productId", VStr "zz"); ("sortOrder", VStr "BestMatch")])
              (serving empty_envelope))) =
      remote_calls (serving empty_envelope) ++ [("finding", params)] /\
    get "OPERATION-NAME" params = Some (VStr "findItemsByProduct") /\
    get "productId.@type" params = Some (VStr "UPC") /\
    get "productId" params = Some (VStr "0885909950805") /\
    forall k,
      k <> "OPERATION-NAME" -> k <> "productId.@type" -> k <> "productId" ->
      get k params = get k [("productId", VStr "zz"); ("sortOrder", VStr "BestMatch")].
Proof.
  apply (@legacy_search_request (VStr "UPC") (VStr "0885909950805")
           (VObj [("productId", VStr "zz"); ("sortOrder", VStr "BestMatch")])
           _ (serving empty_envelope) (answering VNull empty_envelope)).
  - reflexivity.
  - reflexivity.
  - distinct_keys.
  - left. reflexivity.
Defined.

(** X20.  With a handle in place, a supported type and an identifier that is
    not falsy, the earlier [findItemsByProduct] and the present one send the
    same request and end alike, but for one case: a TypeError raised while
    the record is built rejects the promise now, where it used to escape the
    callback and leave the promise unsettled. *)
Theorem revisions_agree (type id other : value) (w : world) (c : client) :
  ebay w = Some c ->
  validProductIdType type = true ->
  truthy id = true ->
  exists p w',
    findItemsByProduct type id other w = (Return (Started p), w') /\
    fst (Legacy.findItemsByProduct type id other w) = Return (in_callback p) /\
    remote_calls (snd (Legacy.findItemsByProduct type id other w)) = remote_calls w'.
Proof.
  intros Hc Hvalid Hid.
  rewrite findItemsByProduct_run by exact Hid.
  unfold callFindByProduct. rewrite Hvalid. cbn [negb].
  rewrite (@findCall_initialised "findItemsByProduct" findByProductParser
             [("productId.@type", type); ("productId", id)] (or_empty other) w c Hc eq_refl).
  unfold Legacy.findItemsByProduct, bind, handle, emit, ret.
  rewrite Hc, Hvalid. cbn [negb].
  set (params := request_params "findItemsByProduct"
                   [("productId.@type", type); ("productId", id)] (or_empty other)).
  change (set_prop "productId" id
            (set_prop "productId.@type" type
               (set_prop "OPERATION-NAME" (VStr "findItemsByProduct")
                  (spread (own_props (or_empty other)) [])))) with params.
  change ("findItemsByProduct" ++ "Response")%string with "findItemsByProductResponse".
  destruct (respond c "finding" params) as [err data].
  destruct (truthy err).
  { eexists _, _. split; [reflexivity|]. split; [reflexivity|].
    reflexivity. }
  destruct (read "findItemsByProductResponse" (flatten data)) as [response|e].
  2:{ eexists _, _. split; [reflexivity|]. split; [reflexivity|].
      reflexivity. }
  destruct (truthy response); cbn [negb].
  2:{ eexists _, _. split; [reflexivity|]. split; [reflexivity|].
      reflexivity. }
  pose proof (@parser_throws_no_Error response) as Hnever.
  eexists _, _. split; [reflexivity|]. split.
  - cbn [fst]. destruct (findByProductParser response) as [r|[m|t|v]];
      [reflexivity | now elim (Hnever m) | reflexivity | reflexivity].
  - cbn [snd]. unfold remote_calls. cbn [trace].
    rewrite !flat_map_app. reflexivity.
Qed.

Lemma revisions_agree_witness :
  exists p w',
    findItemsByProduct (VStr "UPC") (VStr "0885909950805") VUndef
      (serving (VObj [("findItemsByProductResponse", VArr [no_searchResult])]))
      = (Return (Started p), w') /\
    fst (Legacy.findItemsByProduct (VStr "UPC") (VStr "0885909950805") VUndef
           (serving (VObj [("findItemsByProductResponse", VArr [no_searchResult])])))
      = Return (in_callback p) /\
    remote_calls
      (snd (Legacy.findItemsByProduct (VStr "UPC") (VStr "0885909950805") VUndef
              (serving (VObj [("findItemsByProductResponse", VArr [no_searchResult])]))))
      = remote_calls w'.
Proof.
  apply (@revisions_agree (VStr "UPC") (VStr "0885909950805") VUndef
           (serving (VObj [("findItemsByProductResponse", VArr [no_searchResult])]))
           (answering VNull (VObj [("findItemsByProductResponse", VArr [no_searchResult])])));
    reflexivity.
Defined.
